(** * React-Image-Compressor: the resize-and-reencode widget of [src/App.jsx]

    A shallow embedding of the [App] component: its state, the pipeline
    [compressImage], the processing effect [processImage] and the three
    kinds of handlers, followed by the properties of the specification.

    JavaScript numbers are IEEE 754 binary64 values; they are modelled by
    the Standard Library's [spec_float] at precision 53 and maximal
    exponent 1024, so that [*], [/], [>] and [Math.floor] round exactly as
    the program's arithmetic does.

    The effect is modelled twice: [step] runs the pipeline to its end
    within the rendering that starts it, and [wstep] keeps the runs in
    flight, whose callbacks fire later and in any order;
    [processImage_callbacks] relates the two. *)

From Stdlib Require Import ZArith Lia List Bool String Ascii.
From Stdlib Require Import SpecFloat DecimalString.
Import ListNotations.

Local Open Scope string_scope.
Local Open Scope Z_scope.

(** ** JavaScript numbers *)

Module Number.

Definition number := spec_float.

Definition prec : Z := 53.
Definition emax : Z := 1024.

(** An integer as a number (rounded to nearest even when it does not fit
    in 53 bits; exact below [2^53]). *)
Definition of_Z (z : Z) : number := binary_normalize prec emax z 0 false.

(** A decimal literal [digits / 10^frac], e.g. [0.7] is [decimal 7 1]:
    the binary64 value nearest to the decimal, which the correctly
    rounded quotient of the two exact integers is. *)
Definition decimal (digits : Z) (frac : nat) : number :=
  SFdiv prec emax (of_Z digits) (of_Z (10 ^ Z.of_nat frac)).

Definition mul (x y : number) : number := SFmul prec emax x y.
Definition div (x y : number) : number := SFdiv prec emax x y.

(** [x > y], [x <= y]: false as soon as one side is NaN. *)
Definition gt (x y : number) : bool := SFltb y x.
Definition le (x y : number) : bool := SFleb x y.

(** The integer [floor] of the finite number [(-1)^s * m * 2^e], for a
    negative exponent [e]. *)
Definition floor_Z (s : bool) (m : positive) (e : Z) : Z :=
  cond_Zopp s (Zpos m) / 2 ^ (- e).

(** [Math.floor]: NaN, the infinities and the zeros are returned as they
    are; a finite number with a non-negative exponent is an integer. *)
Definition Math_floor (x : number) : number :=
  match x with
  | S754_finite s m e => if 0 <=? e then x else of_Z (floor_Z s m e)
  | _ => x
  end.

(** The mathematical integer a number denotes, when it denotes one. *)
Definition to_Z (x : number) : option Z :=
  match x with
  | S754_zero _ => Some 0
  | S754_finite s m e =>
      if 0 <=? e then Some (cond_Zopp s (Zpos m) * 2 ^ e)
      else if Zpos m mod 2 ^ (- e) =? 0
           then Some (cond_Zopp s (Zpos m) / 2 ^ (- e))
           else None
  | _ => None
  end.

Definition eqb (x y : number) : bool :=
  match x, y with
  | S754_zero a, S754_zero b => Bool.eqb a b
  | S754_infinity a, S754_infinity b => Bool.eqb a b
  | S754_nan, S754_nan => true
  | S754_finite a m e, S754_finite b n f =>
      Bool.eqb a b && Pos.eqb m n && Z.eqb e f
  | _, _ => false
  end.

(** The 53-bit mantissa and the exponent of a positive integer below
    [2^53], as [of_Z] normalizes it. *)
Definition mantissa (p : positive) : positive :=
  match (Zpos (digits2_pos p) - 53)%Z with
  | Zneg k => Pos.iter xO p k
  | _ => p
  end.

Definition exponent (p : positive) : Z := Zpos (digits2_pos p) - 53.

End Number.

Import Number.

(** ** The host environment

    The browser objects the component talks to: the selected [File], the
    [FileReader], the image decoder behind [new Image()], the canvas with
    its JPEG encoder, and the DOM calls of the download link. *)

(** A [File] object: [file_oid] is the identity of the object (what
    [Object.is] compares), [file_type] its MIME type. *)
Record File := { file_oid : nat; file_type : string }.

(** A decoded image: the [width] and [height] attributes of the
    [HTMLImageElement], both [unsigned long]. *)
Record Image := { img_width : Z; img_height : Z }.

(** The canvas after lines 29-32: the two attributes as assigned and the
    single [drawImage(img, 0, 0, newWidth, newHeight)] call. *)
Record Canvas := {
  canvas_width : number;
  canvas_height : number;
  canvas_source : string;
  canvas_dw : number;
  canvas_dh : number
}.

Record Link := { href : string; download : string }.

Inductive HostCall :=
| ReadAsDataURL (f : File)
| ImageSrc (src : string)
| DrawImage (c : Canvas)
| ToDataURL (c : Canvas) (type : string) (quality : number)
| ClearInputValue
| AppendChild (l : Link)
| Click (l : Link)
| RemoveChild (l : Link).

(** What the host answers. [readAsDataURL f] is [Some url] when the reader
    fires [onload] with [e.target.result = url] and [None] when it fires
    [onerror]; [decode src] is [Some img] when the image fires [onload] and
    [None] when it fires [onerror]; [encode c type quality] is what
    [canvas.toDataURL(type, quality)] puts after the scheme [data:];
    [toString_other] prints the numbers that are not integers of
    magnitude below [2^53] (fractions, rounded digits, exponent
    notation), which the selectors never produce. *)
Record Host := {
  readAsDataURL : File -> option string;
  decode : string -> option Image;
  encode : Canvas -> string -> number -> string;
  toString_other : number -> string
}.

Definition toDataURL (h : Host) (c : Canvas) (type : string) (quality : number)
  : string :=
  ("data:" ++ encode h c type quality)%string.

(** Decimal digits of an integer, as [Number::toString] prints them. *)
Definition string_of_Z (z : Z) : string :=
  NilZero.string_of_int (Z.to_int z).

(** [`${x}`] for a number [x]. An integer of magnitude below [2^53] is
    printed with its decimal digits; beyond that the shortest digits that
    read back as the same number are printed, which is left to the host
    as the fractions are. *)
Definition Number_toString (h : Host) (x : number) : string :=
  match x with
  | S754_nan => "NaN"
  | S754_infinity s => if s then "-Infinity" else "Infinity"
  | S754_zero _ => "0"
  | S754_finite _ _ _ =>
      match to_Z x with
      | Some z => if Z.abs z <? 2 ^ 53 then string_of_Z z
                  else toString_other h x
      | None => toString_other h x
      end
  end.

(** Truthiness of a string-or-null value: [null] and [""] are falsy. *)
Definition truthy (v : option string) : bool :=
  match v with
  | None => false
  | Some EmptyString => false
  | Some _ => true
  end.

(** ** Component state (lines 4-10) *)

Record State := {
  originalFile : option File;
  originalImageUrl : option string;
  compressedImage : option string;
  loading : bool;
  error : option string;
  imageQuality : number;
  imageDimensions : number
}.

Definition initial : State := {|
  originalFile := None;
  originalImageUrl := None;
  compressedImage := None;
  loading := false;
  error := None;
  imageQuality := decimal 7 1;
  imageDimensions := of_Z 800
|}.

(** A piece of component code: it updates the state and calls the host. *)
Definition Act (A : Type) : Type := State -> A * State * list HostCall.

Definition ret {A} (a : A) : Act A := fun s => (a, s, []).

Definition bind {A B} (m : Act A) (k : A -> Act B) : Act B :=
  fun s =>
    let '(a, s1, l1) := m s in
    let '(b, s2, l2) := k a s1 in
    (b, s2, (l1 ++ l2)%list).

Declare Scope act_scope.
Delimit Scope act_scope with act.
Notation "x <- m ;; k" := (bind m (fun x => k))
  (at level 61, m at next level, right associativity) : act_scope.
Notation "m ;; k" := (bind m (fun _ => k))
  (at level 61, right associativity) : act_scope.
Local Open Scope act_scope.

Definition get : Act State := fun s => (s, s, []).
Definition call (c : HostCall) : Act unit := fun s => (tt, s, [c]).

Definition setOriginalFile (v : option File) : Act unit := fun s =>
  (tt, {| originalFile := v; originalImageUrl := originalImageUrl s;
          compressedImage := compressedImage s; loading := loading s;
          error := error s; imageQuality := imageQuality s;
          imageDimensions := imageDimensions s |}, []).

Definition setOriginalImageUrl (v : option string) : Act unit := fun s =>
  (tt, {| originalFile := originalFile s; originalImageUrl := v;
          compressedImage := compressedImage s; loading := loading s;
          error := error s; imageQuality := imageQuality s;
          imageDimensions := imageDimensions s |}, []).

Definition setCompressedImage (v : option string) : Act unit := fun s =>
  (tt, {| originalFile := originalFile s;
          originalImageUrl := originalImageUrl s;
          compressedImage := v; loading := loading s;
          error := error s; imageQuality := imageQuality s;
          imageDimensions := imageDimensions s |}, []).

Definition setLoading (v : bool) : Act unit := fun s =>
  (tt, {| originalFile := originalFile s;
          originalImageUrl := originalImageUrl s;
          compressedImage := compressedImage s; loading := v;
          error := error s; imageQuality := imageQuality s;
          imageDimensions := imageDimensions s |}, []).

Definition setError (v : option string) : Act unit := fun s =>
  (tt, {| originalFile := originalFile s;
          originalImageUrl := originalImageUrl s;
          compressedImage := compressedImage s; loading := loading s;
          error := v; imageQuality := imageQuality s;
          imageDimensions := imageDimensions s |}, []).

Definition setImageQuality (v : number) : Act unit := fun s =>
  (tt, {| originalFile := originalFile s;
          originalImageUrl := originalImageUrl s;
          compressedImage := compressedImage s; loading := loading s;
          error := error s; imageQuality := v;
          imageDimensions := imageDimensions s |}, []).

Definition setImageDimensions (v : number) : Act unit := fun s =>
  (tt, {| originalFile := originalFile s;
          originalImageUrl := originalImageUrl s;
          compressedImage := compressedImage s; loading := loading s;
          error := error s; imageQuality := imageQuality s;
          imageDimensions := v |}, []).

(** The state and the host calls an action leaves behind. *)
Definition state_after {A} (m : Act A) (s : State) : State := snd (fst (m s)).
Definition calls_of {A} (m : Act A) (s : State) : list HostCall := snd (m s).

(** ** The pipeline (lines 12-43) *)

(** The outcome of the promise [compressImage] returns. *)
Inductive Settled :=
| Resolved (compressedDataUrl : string)
| Rejected (message : string).

(** Lines 21-27: the dimensions of the canvas for a decoded image. *)
Definition newDimensions (img : Image) (maxWidth : number) : number * number :=
  let newWidth := of_Z (img_width img) in
  let newHeight := of_Z (img_height img) in
  if gt newWidth maxWidth
  then (maxWidth, Math_floor (mul newHeight (div maxWidth newWidth)))
  else (newWidth, newHeight).

(** Lines 18-32: the canvas [img.onload] builds. *)
Definition canvas_of (imgSrc : string) (img : Image) (maxWidth : number)
  : Canvas :=
  let '(newWidth, newHeight) := newDimensions img maxWidth in
  {| canvas_width := newWidth; canvas_height := newHeight;
     canvas_source := imgSrc; canvas_dw := newWidth; canvas_dh := newHeight |}.

Definition compressImage (h : Host) (imgSrc : string)
  (quality maxWidth : number) : Act Settled :=
  call (ImageSrc imgSrc) ;;
  match decode h imgSrc with
  | Some img =>
      let canvas := canvas_of imgSrc img maxWidth in
      call (DrawImage canvas) ;;
      call (ToDataURL canvas "image/jpeg" quality) ;;
      ret (Resolved (toDataURL h canvas "image/jpeg" quality))
  | None => ret (Rejected "Failed to load image for compression.")
  end.

(** ** The processing effect (lines 45-81) *)

(** [err.message || "Error during image compression."] *)
Definition message_or (message : string) : string :=
  if truthy (Some message) then message
  else "Error during image compression.".

(** [processImage], with the values the effect closes over. The reader and
    the decoder answer within the run: one request is in flight at a time. *)
Definition processImage (h : Host) (file : option File)
  (quality dimensions : number) : Act unit :=
  match file with
  | None =>
      setCompressedImage None ;;
      setOriginalImageUrl None
  | Some f =>
      setError None ;;
      setLoading true ;;
      call (ReadAsDataURL f) ;;
      match readAsDataURL h f with
      | Some url =>
          setOriginalImageUrl (Some url) ;;
          r <- compressImage h url quality dimensions ;;
          match r with
          | Resolved compressedUrl => setCompressedImage (Some compressedUrl)
          | Rejected message =>
              setError (Some (message_or message)) ;;
              setCompressedImage None
          end ;;
          setLoading false
      | None =>
          setError (Some "Failed to read the file.") ;;
          setLoading false
      end
  end.

Definition effect (h : Host) : Act unit :=
  s <- get ;;
  processImage h (originalFile s) (imageQuality s) (imageDimensions s).

(** ** The handlers (lines 83-121) *)

(** [handleImageUpload], on a change event with [event.target.files]. *)
Definition handleImageUpload (files : list File) : Act unit :=
  match files with
  | [] =>
      setError (Some "Please select an image file.") ;;
      setOriginalFile None
  | file :: _ =>
      if negb (prefix "image/" (file_type file)) then
        setError (Some "The selected file is not an image. Please upload an image (e.g., JPEG, PNG).") ;;
        setOriginalFile None
      else
        setError None ;;
        setOriginalFile (Some file) ;;
        call ClearInputValue
  end.

(** The file name of line 108. *)
Definition download_name (h : Host) (quality dimensions : number) : string :=
  ("compressed_image_w" ++ Number_toString h dimensions ++ "_q"
     ++ Number_toString h (Math_floor (mul quality (of_Z 100))) ++ ".jpg")%string.

Definition handleDownloadCompressed (h : Host) : Act unit :=
  s <- get ;;
  match compressedImage s with
  | Some url =>
      if truthy (Some url) then
        let link := {| href := url;
                       download := download_name h (imageQuality s)
                                     (imageDimensions s) |} in
        call (AppendChild link) ;;
        call (Click link) ;;
        call (RemoveChild link)
      else ret tt
  | None => ret tt
  end.

(** [handleQualityChange], [handleDimensionsChange]: [value] is the number
    [parseFloat] (resp. [parseInt]) reads from the chosen option's value. *)
Definition handleQualityChange (value : number) : Act unit :=
  setImageQuality value.

Definition handleDimensionsChange (value : number) : Act unit :=
  setImageDimensions value.

(** The four messages the component can show. *)
Definition msg_select : string := "Please select an image file.".
Definition msg_not_image : string :=
  "The selected file is not an image. Please upload an image (e.g., JPEG, PNG).".
Definition msg_read : string := "Failed to read the file.".
Definition msg_decode : string := "Failed to load image for compression.".

(** ** The two selectors (lines 205-237) *)

Definition quality_options : list (number * string) :=
  [ (decimal 10 1, "100%"); (decimal 9 1, "90%"); (decimal 8 1, "80%");
    (decimal 7 1, "70% (Default)"); (decimal 6 1, "60%");
    (decimal 5 1, "50%"); (decimal 4 1, "40%"); (decimal 3 1, "30%");
    (decimal 2 1, "20%"); (decimal 1 1, "10%") ]%string.

Definition dimension_options : list (number * string) :=
  [ (of_Z 400, "400px"); (of_Z 800, "800px (Default)");
    (of_Z 1200, "1200px"); (of_Z 1600, "1600px");
    (of_Z 2000, "2000px") ]%string.

(** The percentages and the widths the two selectors show. *)
Definition percents : list Z := [100; 90; 80; 70; 60; 50; 40; 30; 20; 10].
Definition widths : list Z := [400; 800; 1200; 1600; 2000].

(** ** Rendering: a handler runs, then the effect when a dependency changed *)

Inductive Event :=
| Upload (files : list File)
| QualityChange (value : number)
| DimensionsChange (value : number)
| Download.

Definition handler (h : Host) (ev : Event) : Act unit :=
  match ev with
  | Upload files => handleImageUpload files
  | QualityChange value => handleQualityChange value
  | DimensionsChange value => handleDimensionsChange value
  | Download => handleDownloadCompressed h
  end.

Definition File_eqb (f g : File) : bool :=
  Nat.eqb (file_oid f) (file_oid g) && String.eqb (file_type f) (file_type g).

Definition same_file (a b : option File) : bool :=
  match a, b with
  | None, None => true
  | Some f, Some g => File_eqb f g
  | _, _ => false
  end.

(** The dependency array of line 81, compared as [Object.is] does
    ([compressImage] is the same callback at every render). *)
Definition deps_changed (s s' : State) : bool :=
  negb (same_file (originalFile s) (originalFile s')
        && Number.eqb (imageQuality s) (imageQuality s')
        && Number.eqb (imageDimensions s) (imageDimensions s')).

Definition step (h : Host) (ev : Event) : Act unit :=
  s <- get ;;
  handler h ev ;;
  s' <- get ;;
  if deps_changed s s' then effect h else ret tt.

(** What the two selectors can send. *)
Definition quality_ok (q : number) : Prop := In q (map fst quality_options).
Definition dimensions_ok (d : number) : Prop :=
  In d (map fst dimension_options).

Definition selectable (ev : Event) : Prop :=
  match ev with
  | QualityChange value => quality_ok value
  | DimensionsChange value => dimensions_ok value
  | _ => True
  end.

(** The states between steps when every run of the pipeline completes
    within the step that starts it; the host may answer differently at
    each step. The states with runs in flight, and those a late run
    writes, are those of [wreachable] below. *)
Inductive reachable : State -> Prop :=
| reachable_initial : reachable initial
| reachable_step (h : Host) (ev : Event) (s : State) :
    reachable s -> selectable ev -> reachable (state_after (step h ev) s).

(** What holds of every state of the component. *)
Definition invariant (s : State) : Prop :=
  (originalFile s = None ->
   originalImageUrl s = None /\ compressedImage s = None)
  /\ loading s = false
  /\ quality_ok (imageQuality s)
  /\ dimensions_ok (imageDimensions s).

(** The messages the error paragraph can hold. *)
Definition error_is_known (e : option string) : Prop :=
  e = None \/ e = Some msg_select \/ e = Some msg_not_image
  \/ e = Some msg_read \/ e = Some msg_decode.

(** The source file is an image by its MIME type. *)
Definition source_is_image (s : State) : Prop :=
  forall f, originalFile s = Some f -> prefix "image/" (file_type f) = true.

(** ** What is displayed (lines 123-252) *)

(** One of the two display areas: the picture, or the grey box with its
    text. *)
Inductive Panel :=
| Picture (src alt : string)
| Placeholder (text : string).

(** The parts of the returned tree that depend on the state: the error
    paragraph of line 142, the loading indicator of lines 146-151, the two
    display areas with their captions, and the values of the two
    selectors. The download button is always there. *)
Record View := {
  error_paragraph : option string;
  loading_indicator : option string;
  original_panel : Panel;
  original_caption : option string;
  compressed_panel : Panel;
  compressed_caption : option string;
  quality_select : number;
  dimensions_select : number
}.

Definition render (s : State) : View := {|
  error_paragraph := if truthy (error s) then error s else None;
  loading_indicator := if loading s then Some "Processing image..." else None;
  original_panel :=
    match originalImageUrl s with
    | Some url => if truthy (Some url) then Picture url "Original Uploaded"
                  else Placeholder "No original image uploaded"
    | None => Placeholder "No original image uploaded"
    end;
  original_caption :=
    if truthy (originalImageUrl s)
    then Some "(Click the image to view full size)" else None;
  compressed_panel :=
    match compressedImage s with
    | Some url => if truthy (Some url) then Picture url "Compressed"
                  else Placeholder "No compressed image available"
    | None => Placeholder "No compressed image available"
    end;
  compressed_caption :=
    if truthy (compressedImage s)
    then Some "(Dimensions/Quality reduced)" else None;
  quality_select := imageQuality s;
  dimensions_select := imageDimensions s
|}.

(** ** Runs in flight (lines 56-77 and 13-42)

    [reader.readAsDataURL] and the decoding behind [img.src] answer later,
    through callbacks that are never cancelled. A run of [processImage]
    that has read nothing yet is [Reading]; once [reader.onload] has
    called [compressImage] it is [Decoding]. Each run keeps the quality
    and the width its closure captured. *)
Inductive Pending :=
| Reading (f : File) (quality dimensions : number)
| Decoding (url : string) (quality dimensions : number).

Record World := { state : State; pending : list Pending }.

Definition initial_world : World := {| state := initial; pending := [] |}.

(** Lines 46-56 and 77: what [processImage] does before it returns. *)
Definition processImage_start (file : option File)
  (quality dimensions : number) : Act (option Pending) :=
  match file with
  | None =>
      setCompressedImage None ;;
      setOriginalImageUrl None ;;
      ret None
  | Some f =>
      setError None ;;
      setLoading true ;;
      call (ReadAsDataURL f) ;;
      ret (Some (Reading f quality dimensions))
  end.

(** Lines 57-62 with 13-15: [reader.onload], up to the [await]. *)
Definition reader_onload (url : string) (quality dimensions : number)
  : Act Pending :=
  setOriginalImageUrl (Some url) ;;
  call (ImageSrc url) ;;
  ret (Decoding url quality dimensions).

(** Lines 72-75: [reader.onerror]. *)
Definition reader_onerror : Act unit :=
  setError (Some "Failed to read the file.") ;;
  setLoading false.

(** Lines 17-37, then 63 and 68: [img.onload] and what follows the
    [await]. *)
Definition img_onload (h : Host) (url : string) (img : Image)
  (quality dimensions : number) : Act unit :=
  let canvas := canvas_of url img dimensions in
  call (DrawImage canvas) ;;
  call (ToDataURL canvas "image/jpeg" quality) ;;
  setCompressedImage (Some (toDataURL h canvas "image/jpeg" quality)) ;;
  setLoading false.

(** Lines 39-41, then 64-68: [img.onerror] and the [catch] block. *)
Definition img_onerror : Act unit :=
  setError (Some (message_or "Failed to load image for compression.")) ;;
  setCompressedImage None ;;
  setLoading false.

(** The callback of a run fires; the host decides which one. *)
Definition complete (h : Host) (p : Pending) : Act (option Pending) :=
  match p with
  | Reading f quality dimensions =>
      match readAsDataURL h f with
      | Some url => p' <- reader_onload url quality dimensions ;; ret (Some p')
      | None => reader_onerror ;; ret None
      end
  | Decoding url quality dimensions =>
      match decode h url with
      | Some img => img_onload h url img quality dimensions ;; ret None
      | None => img_onerror ;; ret None
      end
  end.

Definition run_list (p : option Pending) : list Pending :=
  match p with
  | Some x => [x]
  | None => []
  end.

(** What happens next: the user acts, or the callback of the run at
    position [i] fires. *)
Inductive Label :=
| User (ev : Event)
| Complete (i : nat).

Definition wstep (h : Host) (l : Label) (w : World) : World * list HostCall :=
  match l with
  | User ev =>
      let '(_, s1, l1) := handler h ev (state w) in
      if deps_changed (state w) s1 then
        let '(p, s2, l2) :=
          processImage_start (originalFile s1) (imageQuality s1)
            (imageDimensions s1) s1 in
        ({| state := s2; pending := (pending w ++ run_list p)%list |},
         (l1 ++ l2)%list)
      else ({| state := s1; pending := pending w |}, l1)
  | Complete i =>
      match nth_error (pending w) i with
      | Some p =>
          let '(p', s1, l1) := complete h p (state w) in
          ({| state := s1;
              pending := (firstn i (pending w) ++ run_list p'
                            ++ skipn (S i) (pending w))%list |}, l1)
      | None => (w, [])
      end
  end.

(** A sequence of steps, with the calls it makes. *)
Fixpoint wrun (h : Host) (ls : list Label) (w : World)
  : World * list HostCall :=
  match ls with
  | [] => (w, [])
  | l :: ls' =>
      let '(w1, c1) := wstep h l w in
      let '(w2, c2) := wrun h ls' w1 in
      (w2, (c1 ++ c2)%list)
  end.

Definition wselectable (l : Label) : Prop :=
  match l with
  | User ev => selectable ev
  | Complete _ => True
  end.

(** The states of the component, with the runs in flight. *)
Inductive wreachable : World -> Prop :=
| wreachable_initial : wreachable initial_world
| wreachable_step (h : Host) (l : Label) (w : World) :
    wreachable w -> wselectable l -> wreachable (fst (wstep h l w)).

(** What holds of every state, also while runs are in flight and after a
    late run. *)
Definition world_invariant (w : World) : Prop :=
  quality_ok (imageQuality (state w))
  /\ dimensions_ok (imageDimensions (state w))
  /\ (loading (state w) = true -> pending w <> [])
  /\ source_is_image (state w)
  /\ error_is_known (error (state w))
  /\ (forall data, compressedImage (state w) = Some data ->
                   prefix "data:" data = true).

(** The state after a selection that gives no source file. *)
Definition after_rejection (message : string) (s : State) : State :=
  match originalFile s with
  | Some _ =>
      {| originalFile := None; originalImageUrl := None;
         compressedImage := None; loading := loading s;
         error := Some message; imageQuality := imageQuality s;
         imageDimensions := imageDimensions s |}
  | None =>
      {| originalFile := None; originalImageUrl := originalImageUrl s;
         compressedImage := compressedImage s; loading := loading s;
         error := Some message; imageQuality := imageQuality s;
         imageDimensions := imageDimensions s |}
  end.

(** The state after a parameter was chosen without a source file. *)
Definition without_images (s : State) (quality dimensions : number) : State :=
  {| originalFile := None; originalImageUrl := None; compressedImage := None;
     loading := loading s; error := error s;
     imageQuality := quality; imageDimensions := dimensions |}.

(** ** Sample hosts, for the concrete runs below *)

Definition sample_url : string := "data:image/png;base64,AAAA".

Definition sample_host (read : File -> option string)
  (dec : string -> option Image) : Host :=
  {| readAsDataURL := read;
     decode := dec;
     encode := fun _ type _ => type ++ ";base64,/9j/";
     toString_other := fun _ => "" |}.

Definition png (oid : nat) : File := {| file_oid := oid; file_type := "image/png" |}.

(** Every file reads as [sample_url], which decodes to a [w] x [h] image. *)
Definition host_decoding (w h : Z) : Host :=
  sample_host (fun _ => Some sample_url)
    (fun _ => Some {| img_width := w; img_height := h |}).

(** Every file reads, no data decodes. *)
Definition host_not_decoding : Host :=
  sample_host (fun _ => Some sample_url) (fun _ => None).

(** Only the file object [1] can be read; it is a 1600 x 1200 image. *)
Definition host_reading_first : Host :=
  sample_host (fun f => if Nat.eqb (file_oid f) 1 then Some sample_url else None)
    (fun _ => Some {| img_width := 1600; img_height := 1200 |}).

(** A host whose encoder names the quality and the width it was given. *)
Definition tag (x : number) : string :=
  match to_Z x with
  | Some z => string_of_Z z
  | None => "?"
  end.

Definition host_tagging : Host :=
  {| readAsDataURL := fun _ => Some sample_url;
     decode := fun _ => Some {| img_width := 1600; img_height := 1200 |};
     encode := fun c type quality =>
                 type ++ ";q=" ++ tag (Math_floor (mul quality (of_Z 100)))
                 ++ ";w=" ++ tag (canvas_width c) ++ ";base64,/9j/";
     toString_other := fun _ => "" |}.

(** ** Sample traces, for the concrete runs below *)

(** A file that is not an image. *)
Definition pdf (oid : nat) : File :=
  {| file_oid := oid; file_type := "application/pdf" |}.

(** An image is compressed with the defaults, then the quality 50% is
    selected: the run for it is in flight. *)
Definition trace_quality_changed : list Label :=
  [User (Upload [png 1]); Complete 0; Complete 0;
   User (QualityChange (decimal 5 1))]%nat.

(** An image file is selected and, before it is read, a file that is not
    an image; the run of the first file completes afterwards. *)
Definition trace_late_run : list Label :=
  [User (Upload [png 1]); User (Upload [pdf 2]); Complete 0; Complete 0]%nat.

(** Splits [world_invariant] into its six parts. *)
Ltac invariant_goals :=
  unfold world_invariant, source_is_image;
  cbn [state pending originalFile originalImageUrl compressedImage loading
       error imageQuality imageDimensions];
  split; [|split; [|split; [|split; [|split]]]].

(** * Properties *)

(** ** Numbers: integers below [2^53] are exact and ordered as integers *)

Lemma digits2_pos_size (p : positive) : digits2_pos p = Pos.size p.
Proof. induction p; simpl; congruence. Qed.

Lemma digits2_pos_lower (p : positive) :
  2 ^ (Zpos (digits2_pos p) - 1) <= Zpos p.
Proof.
  induction p as [p IH | p IH |]; simpl digits2_pos.
  - rewrite Pos2Z.inj_succ, Pos2Z.inj_xI.
    replace (Z.succ (Zpos (digits2_pos p)) - 1)
      with (Z.succ (Zpos (digits2_pos p) - 1)) by lia.
    rewrite Z.pow_succ_r by lia. lia.
  - rewrite Pos2Z.inj_succ. change (Zpos p~0) with (2 * Zpos p).
    replace (Z.succ (Zpos (digits2_pos p)) - 1)
      with (Z.succ (Zpos (digits2_pos p) - 1)) by lia.
    rewrite Z.pow_succ_r by lia. lia.
  - reflexivity.
Qed.

Lemma digits2_pos_upper (p : positive) :
  Zpos p < 2 ^ Zpos (digits2_pos p).
Proof.
  induction p as [p IH | p IH |]; simpl digits2_pos.
  - rewrite Pos2Z.inj_succ, Pos2Z.inj_xI, Z.pow_succ_r by lia. lia.
  - rewrite Pos2Z.inj_succ, Z.pow_succ_r by lia.
    change (Zpos p~0) with (2 * Zpos p). lia.
  - reflexivity.
Qed.

Lemma iter_xO_value (p k : positive) :
  Zpos (Pos.iter xO p k) = Zpos p * 2 ^ Zpos k.
Proof.
  induction k as [|k IH] using Pos.peano_ind.
  - simpl. lia.
  - rewrite Pos.iter_succ, Pos2Z.inj_succ, Z.pow_succ_r by lia.
    change (Zpos (Pos.iter xO p k)~0) with (2 * Zpos (Pos.iter xO p k)).
    rewrite IH. ring.
Qed.

Lemma iter_xO_digits (p k : positive) :
  digits2_pos (Pos.iter xO p k) = (digits2_pos p + k)%positive.
Proof.
  induction k as [|k IH] using Pos.peano_ind.
  - simpl. lia.
  - rewrite Pos.iter_succ. simpl. rewrite IH. lia.
Qed.

(** Rounding a 53-bit mantissa at an exponent in range changes nothing. *)
Lemma binary_round_aux_exact (s : bool) (m : positive) (e : Z) :
  Zpos (digits2_pos m) = 53 -> -1074 <= e <= 971 ->
  binary_round_aux prec emax s (Zpos m) e loc_Exact = S754_finite s m e.
Proof.
  intros Hm He.
  assert (Hshift : fexp prec emax (Zdigits2 (Zpos m) + e) - e = 0).
  { simpl Zdigits2. rewrite Hm. unfold fexp, SpecFloat.emin, prec, emax. lia. }
  unfold binary_round_aux, shr_fexp.
  rewrite Hshift.
  cbn [shr shr_record_of_loc loc_of_shr_record shr_m round_nearest_even].
  rewrite Hshift.
  cbn [shr shr_m].
  replace (e <=? emax - prec) with true
    by (symmetry; apply Z.leb_le; unfold emax, prec; lia).
  reflexivity.
Qed.

Section Below_2_53.

Variable p : positive.
Hypothesis Hp : Zpos p < 2 ^ 53.

Lemma digits2_pos_le_53 : Zpos (digits2_pos p) <= 53.
Proof.
  pose proof (digits2_pos_lower p) as Hl.
  destruct (Z_le_gt_dec (Zpos (digits2_pos p)) 53) as [|Hgt]; [assumption|].
  exfalso.
  assert (2 ^ 53 <= 2 ^ (Zpos (digits2_pos p) - 1))
    by (apply Z.pow_le_mono_r; lia).
  lia.
Qed.

Lemma exponent_range : -52 <= exponent p <= 0.
Proof.
  pose proof digits2_pos_le_53 as Hd. unfold exponent. lia.
Qed.

Lemma mantissa_digits : Zpos (digits2_pos (mantissa p)) = 53.
Proof.
  pose proof digits2_pos_le_53 as Hd. unfold mantissa.
  destruct (Zpos (digits2_pos p) - 53) as [|k|k] eqn:E; try lia.
  rewrite iter_xO_digits. lia.
Qed.

Lemma mantissa_value : Zpos (mantissa p) = Zpos p * 2 ^ (- exponent p).
Proof.
  pose proof digits2_pos_le_53 as Hd. unfold mantissa, exponent.
  destruct (Zpos (digits2_pos p) - 53) as [|k|k] eqn:E.
  - simpl. lia.
  - lia.
  - rewrite iter_xO_value. reflexivity.
Qed.

(** The number of a positive integer below [2^53]. *)
Lemma of_Z_pos :
  of_Z (Zpos p) = S754_finite false (mantissa p) (exponent p).
Proof.
  pose proof digits2_pos_le_53 as Hd.
  pose proof mantissa_digits as Hm.
  unfold of_Z, binary_normalize, binary_round.
  replace (fexp prec emax (Zpos (digits2_pos p) + 0))
    with (Zpos (digits2_pos p) - 53)
    by (unfold fexp, SpecFloat.emin, prec, emax; lia).
  unfold shl_align. unfold mantissa, exponent in *.
  rewrite Z.sub_0_r.
  destruct (Zpos (digits2_pos p) - 53) as [|k|k] eqn:E; try lia.
  - apply binary_round_aux_exact; [exact Hm | lia].
  - rewrite <- E. apply binary_round_aux_exact; [exact Hm | lia].
Qed.

End Below_2_53.

(** Reading back the integer: [of_Z] loses nothing below [2^53]. *)
Lemma to_Z_of_Z (z : Z) : 0 <= z < 2 ^ 53 -> to_Z (of_Z z) = Some z.
Proof.
  intros Hz. destruct z as [|p|p]; [reflexivity | | lia].
  rewrite of_Z_pos by lia.
  pose proof (exponent_range p ltac:(lia)) as He.
  pose proof (mantissa_value p ltac:(lia)) as Hm.
  unfold to_Z. cbn [cond_Zopp]. rewrite Hm.
  destruct (0 <=? exponent p) eqn:E0.
  - apply Z.leb_le in E0. replace (exponent p) with 0 by lia.
    simpl. f_equal. lia.
  - assert (0 < 2 ^ (- exponent p)) by (apply Z.pow_pos_nonneg; lia).
    rewrite Z.mod_mul, Z.eqb_refl, Z.div_mul by lia. reflexivity.
Qed.

(** [Math.floor] of a positive number with a fraction part is the
    integer quotient of its mantissa. *)
Lemma Math_floor_finite (m : positive) (e : Z) :
  Zpos m < 2 ^ 53 -> e < 0 ->
  to_Z (Math_floor (S754_finite false m e)) = Some (Zpos m / 2 ^ (- e)).
Proof.
  intros Hm He. unfold Math_floor, floor_Z.
  replace (0 <=? e) with false by (symmetry; apply Z.leb_gt; lia).
  cbn [cond_Zopp]. apply to_Z_of_Z.
  assert (0 < 2 ^ (- e)) by (apply Z.pow_pos_nonneg; lia).
  split; [apply Z.div_pos; lia|].
  apply Z.le_lt_trans with (Zpos m); [|exact Hm].
  apply Z.div_le_upper_bound; [lia|]. nia.
Qed.

Lemma SFcompare_of_Z (a b : Z) :
  0 <= a < 2 ^ 53 -> 0 <= b < 2 ^ 53 ->
  SFcompare (of_Z a) (of_Z b) = Some (a ?= b).
Proof.
  intros Ha Hb.
  destruct a as [|p|p]; [ | | lia]; destruct b as [|q|q]; try lia;
    try rewrite (of_Z_pos p) by lia; try rewrite (of_Z_pos q) by lia;
    try reflexivity.
  cbn [SFcompare]. f_equal.
  pose proof (mantissa_value p ltac:(lia)) as Hmp.
  pose proof (mantissa_value q ltac:(lia)) as Hmq.
  pose proof (digits2_pos_le_53 p ltac:(lia)) as Hdp.
  pose proof (digits2_pos_le_53 q ltac:(lia)) as Hdq.
  pose proof (digits2_pos_lower p) as Hlp.
  pose proof (digits2_pos_upper p) as Hup.
  pose proof (digits2_pos_lower q) as Hlq.
  pose proof (digits2_pos_upper q) as Huq.
  unfold exponent in *.
  destruct (Z.compare_spec (Zpos (digits2_pos p) - 53)
              (Zpos (digits2_pos q) - 53)) as [E|E|E].
  - (* same exponent: the mantissas are the integers, scaled alike *)
    rewrite E in Hmp.
    assert (Hk : 0 < 2 ^ (- (Zpos (digits2_pos q) - 53)))
      by (apply Z.pow_pos_nonneg; lia).
    change (Pos.compare_cont Eq (mantissa p) (mantissa q))
      with (Zpos (mantissa p) ?= Zpos (mantissa q)).
    rewrite Hmp, Hmq.
    symmetry. apply Zmult_compare_compat_r. lia.
  - symmetry. apply Z.compare_lt_iff.
    assert (2 ^ Zpos (digits2_pos p) <= 2 ^ (Zpos (digits2_pos q) - 1))
      by (apply Z.pow_le_mono_r; lia).
    lia.
  - symmetry. apply Z.compare_gt_iff.
    assert (2 ^ Zpos (digits2_pos q) <= 2 ^ (Zpos (digits2_pos p) - 1))
      by (apply Z.pow_le_mono_r; lia).
    lia.
Qed.

Lemma gt_of_Z (a b : Z) :
  0 <= a < 2 ^ 53 -> 0 <= b < 2 ^ 53 -> gt (of_Z a) (of_Z b) = (b <? a).
Proof.
  intros Ha Hb. unfold gt, SFltb. rewrite SFcompare_of_Z by assumption.
  unfold Z.ltb. reflexivity.
Qed.

Lemma le_of_Z (a b : Z) :
  0 <= a < 2 ^ 53 -> 0 <= b < 2 ^ 53 -> le (of_Z a) (of_Z b) = (a <=? b).
Proof.
  intros Ha Hb. unfold le, SFleb. rewrite SFcompare_of_Z by assumption.
  unfold Z.leb. destruct (a ?= b); reflexivity.
Qed.

(** ** Numbers: [<=] and [>] exclude one another *)

Lemma SFcompare_antisym (x y : number) :
  SFcompare y x = option_map CompOpp (SFcompare x y).
Proof.
  destruct x as [sx | sx | | sx mx ex], y as [sy | sy | | sy my ey];
    try reflexivity; cbn [SFcompare option_map];
    try (destruct sx; reflexivity); try (destruct sy; reflexivity);
    try (destruct sx, sy; reflexivity).
  rewrite (Z.compare_antisym ex ey).
  pose proof (Pos.compare_cont_antisym mx my Eq) as Hm.
  cbn [CompOpp] in Hm. rewrite <- Hm.
  destruct sx, sy; try reflexivity;
    destruct (ex ?= ey); cbn [CompOpp]; try reflexivity;
    destruct (Pos.compare_cont Eq mx my); reflexivity.
Qed.

Lemma le_not_gt (x y : number) : le x y = true -> gt x y = false.
Proof.
  unfold le, gt, SFleb, SFltb. rewrite (SFcompare_antisym x y).
  destruct (SFcompare x y) as [[ | | ] | ]; cbn; congruence.
Qed.

Lemma not_gt_le (x y : number) :
  x <> S754_nan -> y <> S754_nan -> gt x y = false -> le x y = true.
Proof.
  unfold le, gt, SFleb, SFltb. rewrite (SFcompare_antisym x y).
  intros Hx Hy.
  destruct x, y; try congruence; cbn [SFcompare];
    match goal with
    | |- context [Some ?c] => destruct c eqn:E; cbn; congruence
    | _ => idtac
    end.
Qed.

Lemma le_refl (x : number) : x <> S754_nan -> le x x = true.
Proof.
  unfold le, SFleb. intros Hx.
  destruct x as [s | s | | s m e]; try congruence; cbn [SFcompare];
    try (destruct s; reflexivity).
  rewrite Z.compare_refl, Pos.compare_cont_refl. destruct s; reflexivity.
Qed.

Lemma eqb_refl (x : number) : Number.eqb x x = true.
Proof.
  destruct x as [b | b | | b m e]; cbn; try reflexivity;
    try (destruct b; reflexivity).
  rewrite Pos.eqb_refl, Z.eqb_refl. destruct b; reflexivity.
Qed.

Lemma File_eqb_refl (f : File) : File_eqb f f = true.
Proof.
  unfold File_eqb. rewrite Nat.eqb_refl, String.eqb_refl. reflexivity.
Qed.

Lemma deps_changed_same (s : State) : deps_changed s s = false.
Proof.
  unfold deps_changed, same_file. rewrite !eqb_refl.
  destruct (originalFile s); [rewrite File_eqb_refl|]; reflexivity.
Qed.

Lemma of_Z_not_nan (z : Z) : 0 <= z < 2 ^ 53 -> of_Z z <> S754_nan.
Proof.
  intros Hz. destruct z as [|p|p]; [discriminate | | lia].
  rewrite of_Z_pos by lia. discriminate.
Qed.

(** ** The dimensions of the derived image *)

(** The branch of line 24 is taken exactly when the integer width exceeds
    the integer bound; the new height is then the floor of the rounded
    product [h * (maxWidth / w)]. *)
Lemma newDimensions_downscale (w h mw : Z) :
  0 <= mw -> mw < w -> w < 2 ^ 53 ->
  newDimensions {| img_width := w; img_height := h |} (of_Z mw)
  = (of_Z mw, Math_floor (mul (of_Z h) (div (of_Z mw) (of_Z w)))).
Proof.
  intros H0 Hlt Hw. unfold newDimensions. cbn [img_width img_height].
  rewrite gt_of_Z by lia.
  replace (mw <? w) with true by (symmetry; apply Z.ltb_lt; lia).
  reflexivity.
Qed.

(** The first scenario of the specification: 1600 x 1200 at 800. *)
Example newDimensions_1600x1200_at_800 :
  newDimensions {| img_width := 1600; img_height := 1200 |} (of_Z 800)
  = (of_Z 800, of_Z 600).
Proof. vm_compute. reflexivity. Qed.

(** The second scenario: 300 x 200 at 800 is left as it is. *)
Example newDimensions_300x200_at_800 :
  newDimensions {| img_width := 300; img_height := 200 |} (of_Z 800)
  = (of_Z 300, of_Z 200).
Proof. vm_compute. reflexivity. Qed.

(** C1 (the code departs from the claim). A 770 x 77 image at
    [maxWidth = 400]: [400 / 770] rounds down to a binary64 value just
    below 40/77, the product with 77 is just below 40, and [Math.floor]
    returns 39, although [floor (77 * 400 / 770)] is 40. The derived image
    is 400 x 39, not 400 x 40. *)
Theorem compressImage_770x77_at_400 :
  let img := {| img_width := 770; img_height := 77 |} in
  let canvas := {| canvas_width := of_Z 400; canvas_height := of_Z 39;
                   canvas_source := sample_url;
                   canvas_dw := of_Z 400; canvas_dh := of_Z 39 |} in
  newDimensions img (of_Z 400) = (of_Z 400, of_Z 39)
  /\ compressImage (host_decoding 770 77) sample_url (decimal 7 1) (of_Z 400)
       initial
     = (Resolved (toDataURL (host_decoding 770 77) canvas "image/jpeg"
                    (decimal 7 1)),
        initial,
        [ImageSrc sample_url; DrawImage canvas;
         ToDataURL canvas "image/jpeg" (decimal 7 1)])
  /\ 77 * 400 / 770 = 40
  /\ of_Z 39 <> of_Z (77 * 400 / 770).
Proof.
  cbv zeta. split; [vm_compute; reflexivity|].
  split; [vm_compute; reflexivity|].
  split; [reflexivity|].
  vm_compute. discriminate.
Qed.

(** C2. When the image is not wider than [maxWidth] (the comparison [<=]
    of numbers), the pipeline resolves with the encoding of a canvas that
    has the width and the height of the image: nothing is scaled up. *)
Theorem compressImage_no_upscaling (h : Host) (imgSrc : string) (img : Image)
  (quality maxWidth : number) (s : State) :
  decode h imgSrc = Some img ->
  le (of_Z (img_width img)) maxWidth = true ->
  let canvas := {| canvas_width := of_Z (img_width img);
                   canvas_height := of_Z (img_height img);
                   canvas_source := imgSrc;
                   canvas_dw := of_Z (img_width img);
                   canvas_dh := of_Z (img_height img) |} in
  newDimensions img maxWidth = (of_Z (img_width img), of_Z (img_height img))
  /\ compressImage h imgSrc quality maxWidth s
     = (Resolved (toDataURL h canvas "image/jpeg" quality), s,
        [ImageSrc imgSrc; DrawImage canvas;
         ToDataURL canvas "image/jpeg" quality]).
Proof.
  intros Hdec Hle canvas.
  assert (Hdim : newDimensions img maxWidth
                 = (of_Z (img_width img), of_Z (img_height img))).
  { unfold newDimensions. rewrite (le_not_gt _ _ Hle). reflexivity. }
  split; [exact Hdim|].
  unfold compressImage, bind, call, ret, canvas_of.
  rewrite Hdec, Hdim. reflexivity.
Qed.

Lemma compressImage_no_upscaling_witness :
  let h := host_decoding 300 200 in
  let canvas := {| canvas_width := of_Z 300; canvas_height := of_Z 200;
                   canvas_source := sample_url;
                   canvas_dw := of_Z 300; canvas_dh := of_Z 200 |} in
  newDimensions {| img_width := 300; img_height := 200 |} (of_Z 800)
  = (of_Z 300, of_Z 200)
  /\ compressImage h sample_url (decimal 7 1) (of_Z 800) initial
     = (Resolved (toDataURL h canvas "image/jpeg" (decimal 7 1)), initial,
        [ImageSrc sample_url; DrawImage canvas;
         ToDataURL canvas "image/jpeg" (decimal 7 1)]).
Proof.
  exact (compressImage_no_upscaling (host_decoding 300 200) sample_url
           {| img_width := 300; img_height := 200 |} (decimal 7 1) (of_Z 800)
           initial eq_refl eq_refl).
Defined.

(** The same with integers: a width [w <= maxWidth] keeps [w] x [h]. *)
Lemma newDimensions_no_upscaling_Z (w h mw : Z) :
  0 <= w -> w <= mw -> mw < 2 ^ 53 ->
  newDimensions {| img_width := w; img_height := h |} (of_Z mw)
  = (of_Z w, of_Z h).
Proof.
  intros H0 Hle Hmw. unfold newDimensions. cbn [img_width img_height].
  rewrite gt_of_Z by lia.
  replace (mw <? w) with false by (symmetry; apply Z.ltb_ge; lia).
  reflexivity.
Qed.

(** The width never exceeds [maxWidth]. *)
Lemma newDimensions_width_le (img : Image) (maxWidth : number) :
  0 <= img_width img < 2 ^ 53 -> maxWidth <> S754_nan ->
  le (fst (newDimensions img maxWidth)) maxWidth = true.
Proof.
  intros Hw Hmw. unfold newDimensions.
  destruct (gt (of_Z (img_width img)) maxWidth) eqn:E; cbn [fst].
  - apply le_refl. exact Hmw.
  - apply not_gt_le; [apply of_Z_not_nan; exact Hw | exact Hmw | exact E].
Qed.

(** C3 (the code departs from the claim, by the defect of C1). For the
    770 x 77 image at [maxWidth = 400] the width bound holds, and the
    scaled height [77 * 400 / 770] is the integer 40, so that no rounding
    is called for; the derived image is 400 x 39, whose ratio is not the
    ratio 10 : 1 of the source. *)
Theorem aspect_ratio_770x77_at_400 :
  let d := newDimensions {| img_width := 770; img_height := 77 |} (of_Z 400) in
  le (fst d) (of_Z 400) = true
  /\ to_Z (fst d) = Some 400
  /\ to_Z (snd d) = Some 39
  /\ 770 * 40 = 77 * 400
  /\ 770 * 39 <> 77 * 400.
Proof.
  cbv zeta. repeat split; try (vm_compute; reflexivity). lia.
Qed.

(** Multiplying before dividing keeps the example exact: the quotient
    [30800 / 770] is the integer 40. *)
Example floor_of_product_first_770x77_at_400 :
  Math_floor (div (mul (of_Z 77) (of_Z 400)) (of_Z 770)) = of_Z 40.
Proof. vm_compute. reflexivity. Qed.

(** ** Errors *)


(** C4 (the code departs from the claim). The file object 1 is read,
    decoded and compressed; then the file object 2 is selected and the
    reader fails on it. [reader.onerror] sets the message and clears
    [loading] but does not call [setCompressedImage(null)] as the [catch]
    block of the decode error does: the compressed image of the first file
    stays in the state beside the error. *)
Theorem read_error_keeps_compressedImage :
  let h := host_reading_first in
  let first := handleImageUpload [png 1] ;; effect h in
  let second := handleImageUpload [png 2] ;; effect h in
  compressedImage (state_after first initial)
  = Some "data:image/jpeg;base64,/9j/"
  /\ error (state_after (first ;; second) initial) = Some msg_read
  /\ compressedImage (state_after (first ;; second) initial)
     = Some "data:image/jpeg;base64,/9j/"
  /\ calls_of second (state_after first initial)
     = [ClearInputValue; ReadAsDataURL (png 2)].
Proof. cbv zeta. repeat split; vm_compute; reflexivity. Qed.

(** The same run through the rendering steps. *)
Example read_error_keeps_compressedImage_step :
  let h := host_reading_first in
  let s1 := state_after (step h (Upload [png 1])) initial in
  let s2 := state_after (step h (Upload [png 2])) s1 in
  error s2 = Some msg_read /\ compressedImage s2 = compressedImage s1
  /\ compressedImage s1 <> None.
Proof. cbv zeta. repeat split; try (vm_compute; reflexivity). discriminate. Qed.

(** C5. An accepted file (MIME type with prefix [image/]) whose data the
    decoder rejects: the promise of [compressImage] is rejected, its
    message becomes the error, the compressed image is [null], [loading]
    is cleared, and there was one read and one decode attempt. *)
Theorem decode_error_resets (h : Host) (s : State) (f : File)
  (rest : list File) (url : string) :
  prefix "image/" (file_type f) = true ->
  readAsDataURL h f = Some url ->
  decode h url = None ->
  let run := handleImageUpload (f :: rest) ;; effect h in
  fst (fst (compressImage h url (imageQuality s) (imageDimensions s) s))
  = Rejected msg_decode
  /\ originalFile (state_after run s) = Some f
  /\ error (state_after run s) = Some msg_decode
  /\ compressedImage (state_after run s) = None
  /\ loading (state_after run s) = false
  /\ calls_of run s = [ClearInputValue; ReadAsDataURL f; ImageSrc url].
Proof.
  intros Hp Hr Hd run. subst run.
  unfold state_after, calls_of, effect, bind, get, handleImageUpload,
    processImage, compressImage.
  rewrite Hp. cbn. rewrite Hr. cbn. rewrite Hd. cbn. repeat split.
Qed.

Lemma decode_error_resets_witness :
  let h := host_not_decoding in
  let run := handleImageUpload [png 1] ;; effect h in
  fst (fst (compressImage h sample_url (imageQuality initial)
              (imageDimensions initial) initial))
  = Rejected msg_decode
  /\ originalFile (state_after run initial) = Some (png 1)
  /\ error (state_after run initial) = Some msg_decode
  /\ compressedImage (state_after run initial) = None
  /\ loading (state_after run initial) = false
  /\ calls_of run initial
     = [ClearInputValue; ReadAsDataURL (png 1); ImageSrc sample_url].
Proof.
  exact (decode_error_resets host_not_decoding initial (png 1) [] sample_url
           eq_refl eq_refl eq_refl).
Defined.

(** The effect without a source file clears the preview and the compressed
    image and calls nothing. *)
Lemma effect_without_file (h : Host) (s : State) :
  originalFile s = None ->
  effect h s
  = (tt, {| originalFile := None; originalImageUrl := None;
            compressedImage := None; loading := loading s;
            error := error s; imageQuality := imageQuality s;
            imageDimensions := imageDimensions s |}, []).
Proof.
  intros Hf. destruct s; cbn in Hf; subst. reflexivity.
Qed.

(** C6. A selected file whose MIME type does not start with [image/]: the
    handler sets the message and clears the source file; neither the
    handler, nor the effect run on the cleared state, nor the whole
    rendering step reads a file or loads an image (no host call at all). *)
Theorem not_an_image_no_pipeline (h : Host) (s : State) (f : File)
  (rest : list File) :
  prefix "image/" (file_type f) = false ->
  let run := handleImageUpload (f :: rest) ;; effect h in
  error (state_after (handleImageUpload (f :: rest)) s) = Some msg_not_image
  /\ originalFile (state_after (handleImageUpload (f :: rest)) s) = None
  /\ calls_of (handleImageUpload (f :: rest)) s = []
  /\ error (state_after run s) = Some msg_not_image
  /\ calls_of run s = []
  /\ error (state_after (step h (Upload (f :: rest))) s) = Some msg_not_image
  /\ calls_of (step h (Upload (f :: rest))) s = [].
Proof.
  intros Hp run. subst run.
  unfold state_after, calls_of, step, handler, effect, bind, get,
    handleImageUpload, processImage, deps_changed.
  rewrite Hp. cbn.
  destruct (originalFile s); cbn;
    rewrite ?eqb_refl; cbn; repeat split.
Qed.

Lemma not_an_image_no_pipeline_witness :
  let h := host_decoding 1600 1200 in
  let f := {| file_oid := 1; file_type := "text/plain" |} in
  let run := handleImageUpload [f] ;; effect h in
  error (state_after (handleImageUpload [f]) initial) = Some msg_not_image
  /\ originalFile (state_after (handleImageUpload [f]) initial) = None
  /\ calls_of (handleImageUpload [f]) initial = []
  /\ error (state_after run initial) = Some msg_not_image
  /\ calls_of run initial = []
  /\ error (state_after (step h (Upload [f])) initial) = Some msg_not_image
  /\ calls_of (step h (Upload [f])) initial = [].
Proof.
  exact (not_an_image_no_pipeline (host_decoding 1600 1200) initial
           {| file_oid := 1; file_type := "text/plain" |} [] eq_refl).
Defined.

(** ** Download *)

(** For the selectable parameters the two numbers of the file name print
    as the width and as the percentage. *)
Lemma download_name_options (h : Host) (p mw : Z) :
  In p percents -> In mw widths ->
  download_name h (decimal p 2) (of_Z mw)
  = "compressed_image_w" ++ string_of_Z mw ++ "_q" ++ string_of_Z p ++ ".jpg".
Proof.
  unfold percents, widths. cbn [In]. intros Hp Hmw.
  repeat (destruct Hp as [Hp | Hp]; [subst p|]); try contradiction;
    repeat (destruct Hmw as [Hmw | Hmw]; [subst mw|]); try contradiction;
    vm_compute; reflexivity.
Qed.

(** With a compressed image the handler appends, clicks and removes one
    link to it. *)
Lemma handleDownloadCompressed_link (h : Host) (s : State) (url : string) :
  compressedImage s = Some url -> truthy (Some url) = true ->
  let link := {| href := url;
                 download := download_name h (imageQuality s)
                               (imageDimensions s) |} in
  handleDownloadCompressed h s
  = (tt, s, [AppendChild link; Click link; RemoveChild link]).
Proof.
  intros Hc Ht link. unfold handleDownloadCompressed, bind, get.
  rewrite Hc, Ht. reflexivity.
Qed.

(** The pipeline has run on the source file with the selected quality
    [p]% and width [mw], the file being read and its image decoded
    without any other event in between: the compressed image is what
    [toDataURL] returns for the type [image/jpeg] and that quality, and
    the download handler clicks a link to it whose suggested name is
    [compressed_image_w{mw}_q{p}.jpg]. *)
Theorem download_name_and_encoding (h : Host) (s : State) (f : File)
  (url : string) (img : Image) (p mw : Z) :
  In p percents -> In mw widths ->
  imageQuality s = decimal p 2 -> imageDimensions s = of_Z mw ->
  originalFile s = Some f ->
  readAsDataURL h f = Some url ->
  decode h url = Some img ->
  let s' := state_after (effect h) s in
  let canvas := canvas_of url img (of_Z mw) in
  let data := toDataURL h canvas "image/jpeg" (decimal p 2) in
  let link := {| href := data;
                 download := "compressed_image_w" ++ string_of_Z mw ++ "_q"
                               ++ string_of_Z p ++ ".jpg" |} in
  compressedImage s' = Some data
  /\ In (ToDataURL canvas "image/jpeg" (decimal p 2)) (calls_of (effect h) s)
  /\ handleDownloadCompressed h s'
     = (tt, s', [AppendChild link; Click link; RemoveChild link]).
Proof.
  intros Hp Hmw Hq Hd Hf Hr Hdec s' canvas data link.
  assert (Hrun : effect h s
                 = (tt, {| originalFile := Some f;
                           originalImageUrl := Some url;
                           compressedImage := Some data;
                           loading := false; error := None;
                           imageQuality := decimal p 2;
                           imageDimensions := of_Z mw |},
                    [ReadAsDataURL f; ImageSrc url; DrawImage canvas;
                     ToDataURL canvas "image/jpeg" (decimal p 2)])).
  { unfold effect, bind, get, processImage, compressImage.
    rewrite Hf, Hr, Hdec.
    unfold bind, call, ret, setError, setLoading, setOriginalImageUrl,
      setCompressedImage.
    cbn [originalFile originalImageUrl compressedImage loading error
         imageQuality imageDimensions app].
    rewrite Hf, Hq, Hd. reflexivity. }
  unfold s', state_after, calls_of. rewrite Hrun. cbn [fst snd].
  split; [reflexivity|]. split; [cbn [In]; tauto|].
  rewrite (handleDownloadCompressed_link h _ data) by reflexivity.
  cbn [imageQuality imageDimensions].
  rewrite (download_name_options h p mw Hp Hmw). reflexivity.
Qed.

Lemma download_name_and_encoding_witness :
  let h := host_decoding 1600 1200 in
  let s := state_after (handleImageUpload [png 1]) initial in
  let s' := state_after (effect h) s in
  let canvas := canvas_of sample_url {| img_width := 1600; img_height := 1200 |}
                  (of_Z 800) in
  let data := toDataURL h canvas "image/jpeg" (decimal 70 2) in
  let link := {| href := data;
                 download := "compressed_image_w" ++ string_of_Z 800 ++ "_q"
                               ++ string_of_Z 70 ++ ".jpg" |} in
  compressedImage s' = Some data
  /\ In (ToDataURL canvas "image/jpeg" (decimal 70 2)) (calls_of (effect h) s)
  /\ handleDownloadCompressed h s'
     = (tt, s', [AppendChild link; Click link; RemoveChild link]).
Proof.
  refine (download_name_and_encoding (host_decoding 1600 1200)
            (state_after (handleImageUpload [png 1]) initial) (png 1)
            sample_url {| img_width := 1600; img_height := 1200 |} 70 800
            _ _ eq_refl eq_refl eq_refl eq_refl eq_refl).
  - unfold percents. cbn [In]. tauto.
  - unfold widths. cbn [In]. tauto.
Defined.

(** C8. The quality selector lists 100%, 90%, ..., 10% in this order, with
    the values 1.0, 0.9, ..., 0.1, and the state starts at 0.7; the width
    selector lists 400, 800, 1200, 1600, 2000 and the state starts at
    800. *)
Theorem selector_options :
  map fst quality_options = map (fun p => decimal p 2) percents
  /\ map snd quality_options
     = ["100%"; "90%"; "80%"; "70% (Default)"; "60%"; "50%"; "40%"; "30%";
        "20%"; "10%"]
  /\ imageQuality initial = decimal 70 2
  /\ In (imageQuality initial, "70% (Default)") quality_options
  /\ map fst dimension_options = map of_Z widths
  /\ map snd dimension_options
     = ["400px"; "800px (Default)"; "1200px"; "1600px"; "2000px"]
  /\ imageDimensions initial = of_Z 800
  /\ In (imageDimensions initial, "800px (Default)") dimension_options
  /\ percents = [100; 90; 80; 70; 60; 50; 40; 30; 20; 10]
  /\ widths = [400; 800; 1200; 1600; 2000].
Proof.
  repeat split; try (vm_compute; reflexivity).
  - cbn. tauto.
  - cbn. tauto.
Qed.

(** C10. Without a compressed image the download handler changes no field
    of the state and calls nothing: no link is appended or clicked. The
    rendering step around it finds the dependencies unchanged and does not
    run the effect. *)
Theorem download_without_compressed (h : Host) (s : State) :
  compressedImage s = None ->
  handleDownloadCompressed h s = (tt, s, [])
  /\ step h Download s = (tt, s, []).
Proof.
  intros Hc.
  assert (Hh : handleDownloadCompressed h s = (tt, s, [])).
  { unfold handleDownloadCompressed, bind, get. rewrite Hc. reflexivity. }
  split; [exact Hh|].
  unfold step, bind, get, handler. rewrite Hh. cbn [app].
  rewrite deps_changed_same. reflexivity.
Qed.

Lemma download_without_compressed_witness :
  handleDownloadCompressed (host_decoding 1600 1200) initial
  = (tt, initial, [])
  /\ step (host_decoding 1600 1200) Download initial = (tt, initial, []).
Proof.
  exact (download_without_compressed (host_decoding 1600 1200) initial eq_refl).
Defined.

(** ** The states of the component *)

Lemma step_state (h : Host) (ev : Event) (s : State) :
  state_after (step h ev) s
  = let s1 := state_after (handler h ev) s in
    if deps_changed s s1 then state_after (effect h) s1 else s1.
Proof.
  unfold step, state_after, bind, get.
  destruct (handler h ev s) as [[u s1] l1]. cbn [fst snd].
  destruct (deps_changed s s1); [|reflexivity].
  destruct (effect h s1) as [[u2 s2] l2]. reflexivity.
Qed.

(** The effect keeps its three dependencies, ends with [loading] cleared,
    and clears the two images when there is no source file. *)
Lemma effect_frame (h : Host) (s : State) :
  let s' := state_after (effect h) s in
  originalFile s' = originalFile s
  /\ imageQuality s' = imageQuality s
  /\ imageDimensions s' = imageDimensions s
  /\ (loading s = false -> loading s' = false)
  /\ (originalFile s = None ->
      originalImageUrl s' = None /\ compressedImage s' = None).
Proof.
  destruct s as [file url img ld err q d].
  unfold state_after, effect, bind, get, processImage, compressImage.
  cbn [originalFile imageQuality imageDimensions].
  destruct file as [f|]; [|cbn; repeat split; congruence].
  cbn. destruct (readAsDataURL h f) as [u|]; cbn;
    [destruct (decode h u); cbn|]; repeat split; congruence.
Qed.

(** A handler leaves [loading] and the two images alone; it keeps the two
    parameters selectable. *)
Lemma handler_frame (h : Host) (ev : Event) (s : State) :
  selectable ev ->
  quality_ok (imageQuality s) -> dimensions_ok (imageDimensions s) ->
  let s1 := state_after (handler h ev) s in
  loading s1 = loading s
  /\ originalImageUrl s1 = originalImageUrl s
  /\ compressedImage s1 = compressedImage s
  /\ quality_ok (imageQuality s1)
  /\ dimensions_ok (imageDimensions s1).
Proof.
  intros Hev Hq Hd. destruct s as [file url img ld err q d].
  cbn [imageQuality imageDimensions] in Hq, Hd.
  destruct ev as [files | value | value | ]; cbn [handler selectable] in *.
  - destruct files as [|f rest]; [repeat split; assumption|].
    unfold state_after, handleImageUpload.
    destruct (negb (prefix "image/" (file_type f)));
      repeat split; assumption.
  - repeat split; assumption.
  - repeat split; assumption.
  - unfold state_after, handleDownloadCompressed, bind, get.
    cbn [compressedImage].
    destruct img as [u|]; [destruct (truthy (Some u))|];
      repeat split; assumption.
Qed.

Lemma same_file_None (a : option File) :
  same_file a None = true -> a = None.
Proof. destruct a; [discriminate | reflexivity]. Qed.

Lemma deps_unchanged_file (s s' : State) :
  deps_changed s s' = false ->
  same_file (originalFile s) (originalFile s') = true.
Proof.
  unfold deps_changed. intros H. apply negb_false_iff in H.
  apply andb_prop in H. destruct H as [H _].
  apply andb_prop in H. tauto.
Qed.

Lemma step_invariant (h : Host) (ev : Event) (s : State) :
  selectable ev -> invariant s -> invariant (state_after (step h ev) s).
Proof.
  intros Hev (Hnone & Hload & Hq & Hd).
  rewrite step_state. cbv zeta.
  destruct (handler_frame h ev s Hev Hq Hd) as (H1 & H2 & H3 & H4 & H5).
  destruct (deps_changed s (state_after (handler h ev) s)) eqn:E.
  - destruct (effect_frame h (state_after (handler h ev) s))
      as (F1 & F2 & F3 & F4 & F5).
    unfold invariant. rewrite F1, F2, F3.
    split; [exact F5|].
    split; [apply F4; congruence|].
    split; assumption.
  - apply deps_unchanged_file in E.
    unfold invariant. rewrite H1, H2, H3.
    split; [|split; [assumption | split; assumption]].
    intros Hn. rewrite Hn in E. apply same_file_None in E.
    apply Hnone. exact E.
Qed.

(** In every state of the component: without a source file there is
    neither preview nor compressed image, [loading] is off, and the two
    parameters are among the options of the selectors. *)
Lemma reachable_invariant (s : State) : reachable s -> invariant s.
Proof.
  induction 1 as [|h ev s Hs IH Hev].
  - unfold invariant, quality_ok, dimensions_ok. cbn.
    repeat split; tauto.
  - apply step_invariant; assumption.
Qed.

(** ** Equality of dependencies *)

Lemma eqb_eq (x y : number) : Number.eqb x y = true <-> x = y.
Proof.
  split; [|intros ->; apply eqb_refl].
  destruct x as [a | a | | a m e], y as [b | b | | b n f]; cbn;
    try discriminate; try reflexivity.
  - intros H. apply Bool.eqb_prop in H. congruence.
  - intros H. apply Bool.eqb_prop in H. congruence.
  - intros H. apply andb_prop in H. destruct H as [H He].
    apply andb_prop in H. destruct H as [Hs Hm].
    apply Bool.eqb_prop in Hs. apply Pos.eqb_eq in Hm. apply Z.eqb_eq in He.
    congruence.
Qed.

Lemma eqb_neq (x y : number) : x <> y -> Number.eqb x y = false.
Proof.
  intros H. destruct (Number.eqb x y) eqn:E; [|reflexivity].
  apply eqb_eq in E. contradiction.
Qed.

Lemma step_calls (h : Host) (ev : Event) (s : State) :
  calls_of (step h ev) s
  = let s1 := state_after (handler h ev) s in
    (calls_of (handler h ev) s
       ++ if deps_changed s s1 then calls_of (effect h) s1 else [])%list.
Proof.
  unfold step, state_after, calls_of, bind, get.
  destruct (handler h ev s) as [[u s1] l1]. cbn [fst snd app].
  destruct (deps_changed s s1); [|reflexivity].
  destruct (effect h s1) as [[u2 s2] l2]. reflexivity.
Qed.

(** ** A run of the pipeline that succeeds *)

Lemma effect_success (h : Host) (s : State) (f : File) (url : string)
  (img : Image) :
  originalFile s = Some f ->
  readAsDataURL h f = Some url ->
  decode h url = Some img ->
  let canvas := canvas_of url img (imageDimensions s) in
  effect h s
  = (tt, {| originalFile := Some f; originalImageUrl := Some url;
            compressedImage :=
              Some (toDataURL h canvas "image/jpeg" (imageQuality s));
            loading := false; error := None;
            imageQuality := imageQuality s;
            imageDimensions := imageDimensions s |},
     [ReadAsDataURL f; ImageSrc url; DrawImage canvas;
      ToDataURL canvas "image/jpeg" (imageQuality s)]).
Proof.
  intros Hf Hr Hd canvas.
  unfold effect, bind, get, processImage, compressImage.
  rewrite Hf, Hr, Hd.
  unfold bind, call, ret, setError, setLoading, setOriginalImageUrl,
    setCompressedImage.
  cbn [originalFile originalImageUrl compressedImage loading error
       imageQuality imageDimensions app].
  rewrite Hf. reflexivity.
Qed.



(** ** What one run of the effect asks of the host *)

(** One run of the effect reads at most one file, loads at most one image
    and encodes at most once, as [image/jpeg] at the current quality:
    nothing is tried twice. *)
Theorem effect_calls_once (h : Host) (s : State) :
  calls_of (effect h) s = []
  \/ (exists f, calls_of (effect h) s = [ReadAsDataURL f])
  \/ (exists f url, calls_of (effect h) s = [ReadAsDataURL f; ImageSrc url])
  \/ (exists f url c,
        calls_of (effect h) s
        = [ReadAsDataURL f; ImageSrc url; DrawImage c;
           ToDataURL c "image/jpeg" (imageQuality s)]).
Proof.
  unfold calls_of, effect, bind, get, processImage, compressImage.
  destruct (originalFile s) as [f|]; [|left; reflexivity].
  cbn. destruct (readAsDataURL h f) as [url|]; cbn.
  - destruct (decode h url) as [img|]; cbn.
    + right. right. right. exists f, url. eexists. reflexivity.
    + right. right. left. exists f, url. reflexivity.
  - right. left. exists f. reflexivity.
Qed.

(** The pipeline does not touch the state of the component, and its
    promise is resolved exactly when the image is decoded. *)
Theorem compressImage_settles (h : Host) (imgSrc : string)
  (quality maxWidth : number) (s : State) :
  state_after (compressImage h imgSrc quality maxWidth) s = s
  /\ match decode h imgSrc with
     | Some img =>
         fst (fst (compressImage h imgSrc quality maxWidth s))
         = Resolved (toDataURL h (canvas_of imgSrc img maxWidth)
                       "image/jpeg" quality)
     | None =>
         fst (fst (compressImage h imgSrc quality maxWidth s))
         = Rejected msg_decode
     end.
Proof.
  unfold state_after, compressImage, bind, call, ret.
  destruct (decode h imgSrc); split; reflexivity.
Qed.

(** ** Download and display *)

(** The download handler never changes the state. When the compressed
    area displays a picture, the handler appends, clicks and removes one
    link to that very picture; when it displays the placeholder, the
    handler does nothing. *)
Theorem download_matches_display (h : Host) (s : State) :
  state_after (handleDownloadCompressed h) s = s
  /\ match compressed_panel (render s) with
     | Picture src _ =>
         let link := {| href := src;
                        download := download_name h (imageQuality s)
                                      (imageDimensions s) |} in
         compressedImage s = Some src
         /\ calls_of (handleDownloadCompressed h) s
            = [AppendChild link; Click link; RemoveChild link]
     | Placeholder _ => calls_of (handleDownloadCompressed h) s = []
     end.
Proof.
  unfold state_after, calls_of, handleDownloadCompressed, bind, get, render.
  cbn [compressed_panel].
  destruct (compressedImage s) as [url|]; [|split; reflexivity].
  destruct (truthy (Some url)); split; try split; reflexivity.
Qed.

(** ** Changing a parameter *)

(** Choosing the option that is already selected changes nothing and calls
    nothing: the dependencies of the effect are the same. *)
Theorem reselect_same_option (h : Host) (s : State) :
  step h (QualityChange (imageQuality s)) s = (tt, s, [])
  /\ step h (DimensionsChange (imageDimensions s)) s = (tt, s, []).
Proof.
  destruct s as [file url img ld err q d].
  unfold step, bind, get, handler, handleQualityChange,
    handleDimensionsChange, setImageQuality, setImageDimensions.
  cbn [originalFile originalImageUrl compressedImage loading error
       imageQuality imageDimensions app].
  rewrite deps_changed_same. split; reflexivity.
Qed.

Lemma step_quality_changed (h : Host) (s : State) (value : number) :
  value <> imageQuality s ->
  step h (QualityChange value) s = (handleQualityChange value ;; effect h) s.
Proof.
  intros Hv. destruct s as [file url img ld err q d].
  cbn [imageQuality] in Hv.
  unfold step, bind, get, handler, handleQualityChange, setImageQuality,
    deps_changed.
  cbn [originalFile originalImageUrl compressedImage loading error
       imageQuality imageDimensions app].
  rewrite (eqb_neq q value) by congruence.
  rewrite andb_false_r. cbn [andb negb].
  destruct (effect h _) as [[u s2] l2]. reflexivity.
Qed.

Lemma step_dimensions_changed (h : Host) (s : State) (value : number) :
  value <> imageDimensions s ->
  step h (DimensionsChange value) s
  = (handleDimensionsChange value ;; effect h) s.
Proof.
  intros Hv. destruct s as [file url img ld err q d].
  cbn [imageDimensions] in Hv.
  unfold step, bind, get, handler, handleDimensionsChange,
    setImageDimensions, deps_changed.
  cbn [originalFile originalImageUrl compressedImage loading error
       imageQuality imageDimensions app].
  rewrite (eqb_neq d value) by congruence.
  rewrite andb_false_r. cbn [negb].
  destruct (effect h _) as [[u s2] l2]. reflexivity.
Qed.

(** Choosing another quality while a source file is held, when the
    reader reads that file and the decoder decodes its image again and
    the run completes before the next event: the compressed image becomes
    the encoding at the new quality of the canvas for the unchanged
    width, the error is cleared and [loading] ends off. *)
Theorem quality_change_recompresses (h : Host) (s : State) (value : number)
  (f : File) (url : string) (img : Image) :
  value <> imageQuality s ->
  originalFile s = Some f ->
  readAsDataURL h f = Some url ->
  decode h url = Some img ->
  let canvas := canvas_of url img (imageDimensions s) in
  step h (QualityChange value) s
  = (tt, {| originalFile := Some f; originalImageUrl := Some url;
            compressedImage := Some (toDataURL h canvas "image/jpeg" value);
            loading := false; error := None;
            imageQuality := value;
            imageDimensions := imageDimensions s |},
     [ReadAsDataURL f; ImageSrc url; DrawImage canvas;
      ToDataURL canvas "image/jpeg" value]).
Proof.
  intros Hv Hf Hr Hd canvas.
  rewrite step_quality_changed by exact Hv.
  cbv [bind handleQualityChange setImageQuality].
  erewrite (effect_success h _ f url img); [reflexivity | exact Hf | | ];
    assumption.
Qed.

Lemma quality_change_recompresses_witness :
  let h := host_decoding 1600 1200 in
  let s := state_after (step h (Upload [png 1])) initial in
  let canvas := canvas_of sample_url {| img_width := 1600; img_height := 1200 |}
                  (of_Z 800) in
  step h (QualityChange (decimal 5 1)) s
  = (tt, {| originalFile := Some (png 1); originalImageUrl := Some sample_url;
            compressedImage :=
              Some (toDataURL h canvas "image/jpeg" (decimal 5 1));
            loading := false; error := None;
            imageQuality := decimal 5 1;
            imageDimensions := of_Z 800 |},
     [ReadAsDataURL (png 1); ImageSrc sample_url; DrawImage canvas;
      ToDataURL canvas "image/jpeg" (decimal 5 1)]).
Proof.
  refine (quality_change_recompresses (host_decoding 1600 1200)
            (state_after (step (host_decoding 1600 1200) (Upload [png 1]))
               initial)
            (decimal 5 1) (png 1) sample_url
            {| img_width := 1600; img_height := 1200 |}
            _ eq_refl eq_refl eq_refl).
  vm_compute. discriminate.
Defined.

(** Choosing another width while a source file is held, when the reader
    reads that file and the decoder decodes its image again and the run
    completes before the next event: the compressed image becomes the
    encoding, at the unchanged quality, of the canvas for the new width,
    the error is cleared and [loading] ends off. *)
Theorem dimensions_change_recompresses (h : Host) (s : State)
  (value : number) (f : File) (url : string) (img : Image) :
  value <> imageDimensions s ->
  originalFile s = Some f ->
  readAsDataURL h f = Some url ->
  decode h url = Some img ->
  let canvas := canvas_of url img value in
  step h (DimensionsChange value) s
  = (tt, {| originalFile := Some f; originalImageUrl := Some url;
            compressedImage :=
              Some (toDataURL h canvas "image/jpeg" (imageQuality s));
            loading := false; error := None;
            imageQuality := imageQuality s;
            imageDimensions := value |},
     [ReadAsDataURL f; ImageSrc url; DrawImage canvas;
      ToDataURL canvas "image/jpeg" (imageQuality s)]).
Proof.
  intros Hv Hf Hr Hd canvas.
  rewrite step_dimensions_changed by exact Hv.
  cbv [bind handleDimensionsChange setImageDimensions].
  erewrite (effect_success h _ f url img); [reflexivity | exact Hf | | ];
    assumption.
Qed.

Lemma dimensions_change_recompresses_witness :
  let h := host_decoding 1600 1200 in
  let s := state_after (step h (Upload [png 1])) initial in
  let canvas := canvas_of sample_url {| img_width := 1600; img_height := 1200 |}
                  (of_Z 400) in
  step h (DimensionsChange (of_Z 400)) s
  = (tt, {| originalFile := Some (png 1); originalImageUrl := Some sample_url;
            compressedImage :=
              Some (toDataURL h canvas "image/jpeg" (decimal 7 1));
            loading := false; error := None;
            imageQuality := decimal 7 1;
            imageDimensions := of_Z 400 |},
     [ReadAsDataURL (png 1); ImageSrc sample_url; DrawImage canvas;
      ToDataURL canvas "image/jpeg" (decimal 7 1)]).
Proof.
  refine (dimensions_change_recompresses (host_decoding 1600 1200)
            (state_after (step (host_decoding 1600 1200) (Upload [png 1]))
               initial)
            (of_Z 400) (png 1) sample_url
            {| img_width := 1600; img_height := 1200 |}
            _ eq_refl eq_refl eq_refl).
  vm_compute. discriminate.
Defined.

(** ** More invariants of the component *)

(** A property of the initial state that every handler and the effect
    keep holds of all states. *)
Lemma reachable_preserved (P : State -> Prop) :
  P initial ->
  (forall h ev s, selectable ev -> P s -> P (state_after (handler h ev) s)) ->
  (forall h s, P s -> P (state_after (effect h) s)) ->
  forall s, reachable s -> P s.
Proof.
  intros Hinit Hhandler Heffect s Hs.
  induction Hs as [|h ev s Hs IH Hev]; [exact Hinit|].
  rewrite step_state. cbv zeta.
  destruct (deps_changed s (state_after (handler h ev) s)).
  - apply Heffect, Hhandler; assumption.
  - apply Hhandler; assumption.
Qed.

Lemma handler_frame_images (h : Host) (ev : Event) (s : State) :
  originalImageUrl (state_after (handler h ev) s) = originalImageUrl s
  /\ compressedImage (state_after (handler h ev) s) = compressedImage s.
Proof.
  destruct s as [file url img ld err q d].
  destruct ev as [files | value | value | ]; cbn [handler].
  - destruct files as [|f rest]; [split; reflexivity|].
    unfold state_after, handleImageUpload.
    destruct (negb (prefix "image/" (file_type f))); split; reflexivity.
  - split; reflexivity.
  - split; reflexivity.
  - unfold state_after, handleDownloadCompressed, bind, get.
    cbn [compressedImage].
    destruct img as [u|]; [destruct (truthy (Some u))|]; split; reflexivity.
Qed.

Lemma handler_source_is_image (h : Host) (ev : Event) (s : State) :
  source_is_image s -> source_is_image (state_after (handler h ev) s).
Proof.
  intros IH f. destruct s as [file url img ld err q d].
  unfold source_is_image in IH. cbn [originalFile] in IH.
  destruct ev as [files | value | value | ]; cbn [handler].
  - destruct files as [|g rest]; [discriminate|].
    unfold state_after, handleImageUpload.
    destruct (prefix "image/" (file_type g)) eqn:E; cbn;
      [congruence | discriminate].
  - exact (IH f).
  - exact (IH f).
  - unfold state_after, handleDownloadCompressed, bind, get.
    cbn [compressedImage].
    destruct img as [u|]; [destruct (truthy (Some u))|]; exact (IH f).
Qed.

(** The source file, when there is one, has a MIME type that starts with
    [image/]. *)
Lemma reachable_source_is_image (s : State) :
  reachable s -> source_is_image s.
Proof.
  apply (reachable_preserved source_is_image).
  - intros f. discriminate.
  - intros h ev s0 _. apply handler_source_is_image.
  - intros h s0 IH f.
    destruct (effect_frame h s0) as (F1 & _). rewrite F1. apply IH.
Qed.

Lemma handler_never_reads (h : Host) (ev : Event) (s : State) (f : File) :
  ~ In (ReadAsDataURL f) (calls_of (handler h ev) s).
Proof.
  intros Hin. destruct ev as [files | value | value | ]; cbn [handler] in Hin.
  - destruct files as [|g rest]; [exact Hin|].
    unfold calls_of, handleImageUpload in Hin.
    destruct (negb (prefix "image/" (file_type g))); cbn in Hin;
      [exact Hin | destruct Hin as [Hin | []]; discriminate].
  - exact Hin.
  - exact Hin.
  - unfold calls_of, handleDownloadCompressed, bind, get in Hin.
    destruct (compressedImage s) as [u|]; [|exact Hin].
    destruct (truthy (Some u)); cbn in Hin; [|exact Hin].
    repeat (destruct Hin as [Hin | Hin]; [discriminate|]). exact Hin.
Qed.

Lemma effect_reads_source (h : Host) (s : State) (f : File) :
  In (ReadAsDataURL f) (calls_of (effect h) s) -> originalFile s = Some f.
Proof.
  unfold calls_of, effect, bind, get, processImage, compressImage.
  destruct (originalFile s) as [g|]; [|intros []].
  destruct (readAsDataURL h g) as [u|]; [destruct (decode h u)|];
    cbn; intros Hin;
    repeat (destruct Hin as [Hin | Hin]; [congruence|]); destruct Hin.
Qed.

(** Whatever the user does and the host answers, the component only reads
    files whose MIME type starts with [image/]. *)
Theorem reads_only_images (h : Host) (ev : Event) (s : State) (f : File) :
  reachable s ->
  In (ReadAsDataURL f) (calls_of (step h ev) s) ->
  prefix "image/" (file_type f) = true.
Proof.
  intros Hs Hin. rewrite step_calls in Hin. cbv zeta in Hin.
  apply in_app_or in Hin. destruct Hin as [Hin | Hin].
  - exfalso. exact (handler_never_reads h ev s f Hin).
  - destruct (deps_changed s (state_after (handler h ev) s)); [|destruct Hin].
    apply effect_reads_source in Hin.
    exact (handler_source_is_image h ev s (reachable_source_is_image s Hs)
             f Hin).
Qed.

Lemma reads_only_images_witness :
  prefix "image/" (file_type (png 1)) = true.
Proof.
  refine (reads_only_images (host_decoding 1600 1200) (Upload [png 1])
            initial (png 1) reachable_initial _).
  vm_compute. tauto.
Defined.

(** The error, when there is one, is one of the four messages: the
    fall-back text of line 65 is never shown, since the only rejection of
    the pipeline carries a message. *)
Theorem reachable_error_messages (s : State) :
  reachable s ->
  error_is_known (error s)
  /\ error s <> Some "Error during image compression.".
Proof.
  intros Hs.
  assert (H : error_is_known (error s)).
  { revert s Hs. apply (reachable_preserved (fun s => error_is_known (error s))).
    - left. reflexivity.
    - intros h ev s _ IH. destruct s as [file url img ld err q d].
      cbn [error] in IH.
      destruct ev as [files | value | value | ]; cbn [handler].
      + destruct files as [|g rest]; [right; left; reflexivity|].
        unfold state_after, handleImageUpload.
        destruct (negb (prefix "image/" (file_type g))); cbn;
          [right; right; left; reflexivity | left; reflexivity].
      + exact IH.
      + exact IH.
      + unfold state_after, handleDownloadCompressed, bind, get.
        cbn [compressedImage].
        destruct img as [u|]; [destruct (truthy (Some u))|]; exact IH.
    - intros h s IH. destruct s as [file url img ld err q d].
      cbn [error] in IH.
      unfold state_after, effect, bind, get, processImage, compressImage.
      cbn [originalFile imageQuality imageDimensions].
      destruct file as [f|]; [|exact IH].
      destruct (readAsDataURL h f) as [u|]; [destruct (decode h u)|]; cbn.
      + left. reflexivity.
      + right. right. right. right. reflexivity.
      + right. right. right. left. reflexivity. }
  split; [exact H|].
  destruct H as [H | [H | [H | [H | H]]]]; rewrite H; discriminate.
Qed.

Lemma reachable_error_messages_witness :
  let s := state_after (step host_not_decoding (Upload [png 1])) initial in
  error_is_known (error s)
  /\ error s <> Some "Error during image compression.".
Proof.
  exact (reachable_error_messages _
           (reachable_step host_not_decoding (Upload [png 1]) initial
              reachable_initial I)).
Defined.

(** ** Rounding: how far the computed height is from the exact quotient *)

(** *** Shifting and rounding a mantissa *)

Lemma shr_1_m (mrs : shr_record) :
  0 <= shr_m mrs -> shr_m (shr_1 mrs) = shr_m mrs / 2.
Proof.
  destruct mrs as [m r s]. cbn [shr_m]. intros Hm.
  destruct m as [|p|p]; [reflexivity | | lia].
  destruct p as [p|p|]; cbn [shr_1 shr_m].
  - change (Zpos p~1) with (2 * Zpos p + 1).
    apply Z.div_unique with (r := 1); lia.
  - change (Zpos p~0) with (2 * Zpos p).
    apply Z.div_unique with (r := 0); lia.
  - reflexivity.
Qed.

Lemma iter_pos_shr_m (n : positive) (mrs : shr_record) :
  0 <= shr_m mrs ->
  shr_m (iter_pos shr_1 n mrs) = shr_m mrs / 2 ^ Zpos n.
Proof.
  revert mrs. induction n as [n IH | n IH |]; intros mrs Hm; cbn [iter_pos].
  - assert (H1 : 0 <= shr_m (shr_1 mrs))
      by (rewrite shr_1_m by lia; apply Z.div_pos; lia).
    assert (H2 : 0 <= shr_m (iter_pos shr_1 n (shr_1 mrs)))
      by (rewrite IH by lia; apply Z.div_pos; [lia | apply Z.pow_pos_nonneg; lia]).
    rewrite IH, IH, shr_1_m by lia.
    assert (0 < 2 ^ Zpos n) by (apply Z.pow_pos_nonneg; lia).
    rewrite !Z.div_div by lia.
    f_equal. change (Zpos n~1) with (2 * Zpos n + 1).
    rewrite Z.pow_add_r, Z.pow_mul_r by lia.
    change (2 ^ 2) with 4. rewrite Z.pow_1_r.
    replace 4 with (2 * 2) by reflexivity.
    rewrite Z.pow_mul_l. ring.
  - assert (H2 : 0 <= shr_m (iter_pos shr_1 n mrs))
      by (rewrite IH by lia; apply Z.div_pos; [lia | apply Z.pow_pos_nonneg; lia]).
    rewrite IH, IH by lia.
    assert (0 < 2 ^ Zpos n) by (apply Z.pow_pos_nonneg; lia).
    rewrite !Z.div_div by lia.
    f_equal. change (Zpos n~0) with (2 * Zpos n).
    rewrite Z.pow_mul_r by lia.
    change (2 ^ 2) with 4.
    replace 4 with (2 * 2) by reflexivity.
    rewrite Z.pow_mul_l. ring.
  - rewrite shr_1_m by lia. reflexivity.
Qed.

Lemma digits2_pos_unique (p : positive) (k : Z) :
  2 ^ (k - 1) <= Zpos p < 2 ^ k -> Zpos (digits2_pos p) = k.
Proof.
  intros [Hl Hu].
  pose proof (digits2_pos_lower p) as Dl.
  pose proof (digits2_pos_upper p) as Du.
  assert (0 < k).
  { destruct (Z_lt_le_dec 0 k) as [|Hk]; [assumption|].
    exfalso. destruct (Z.eq_dec k 0) as [->|Hk0].
    - simpl in Hu. lia.
    - rewrite Z.pow_neg_r in Hu by lia. lia. }
  destruct (Z.lt_trichotomy (Zpos (digits2_pos p)) k) as [Hlt | [Heq | Hgt]];
    [exfalso | exact Heq | exfalso].
  - assert (2 ^ Zpos (digits2_pos p) <= 2 ^ (k - 1))
      by (apply Z.pow_le_mono_r; lia).
    lia.
  - assert (2 ^ k <= 2 ^ (Zpos (digits2_pos p) - 1))
      by (apply Z.pow_le_mono_r; lia).
    lia.
Qed.

Lemma shr_m_of_loc (m : Z) (l : location) :
  shr_m (shr_record_of_loc m l) = m.
Proof. destruct l as [|[ | | ]]; reflexivity. Qed.

Lemma shr_spec (mrs : shr_record) (e n : Z) :
  0 <= shr_m mrs -> 0 <= n ->
  shr_m (fst (shr mrs e n)) = shr_m mrs / 2 ^ n /\ snd (shr mrs e n) = e + n.
Proof.
  intros Hm Hn. destruct n as [|p|p]; [ | | lia]; cbn [shr fst snd].
  - rewrite Z.pow_0_r, Z.div_1_r. lia.
  - split; [apply iter_pos_shr_m; exact Hm | reflexivity].
Qed.

Lemma round_nearest_even_cases (m : Z) (l : location) :
  round_nearest_even m l = m \/ round_nearest_even m l = m + 1.
Proof.
  destruct l as [|[ | | ]]; cbn [round_nearest_even]; try tauto.
  destruct (Z.even m); tauto.
Qed.

Lemma binary_round_aux_near (s : bool) (mx : positive) (ex : Z)
  (lx : location) :
  53 <= Zpos (digits2_pos mx) ->
  -1074 <= ex + Zpos (digits2_pos mx) - 53 ->
  ex + Zpos (digits2_pos mx) - 53 < 971 ->
  exists m e,
    binary_round_aux prec emax s (Zpos mx) ex lx = S754_finite s m e
    /\ Zpos (digits2_pos m) = 53
    /\ ex <= e
    /\ Zpos mx - 2 ^ (e - ex) <= Zpos m * 2 ^ (e - ex)
       <= Zpos mx + 2 ^ (e - ex).
Proof.
  intros Hd Hlo Hhi.
  pose proof (digits2_pos_lower mx) as Dl.
  pose proof (digits2_pos_upper mx) as Du.
  set (d := Zpos (digits2_pos mx)) in *.
  set (n := d - 53).
  assert (Hn : 0 <= n) by (unfold n; lia).
  assert (Hpn : 0 < 2 ^ n) by (apply Z.pow_pos_nonneg; lia).
  assert (Hdn : 2 ^ d = 2 ^ n * 2 ^ 53)
    by (rewrite <- Z.pow_add_r by lia; f_equal; unfold n; lia).
  assert (Hdn1 : 2 ^ (d - 1) = 2 ^ n * 2 ^ 52)
    by (rewrite <- Z.pow_add_r by lia; f_equal; unfold n; lia).
  set (k := Zpos mx / 2 ^ n).
  assert (Hk : 2 ^ 52 <= k < 2 ^ 53).
  { unfold k. split.
    - apply Z.div_le_lower_bound; lia.
    - apply Z.div_lt_upper_bound; lia. }
  assert (Hkm : k * 2 ^ n <= Zpos mx < (k + 1) * 2 ^ n).
  { unfold k. pose proof (Z.mul_div_le (Zpos mx) (2 ^ n) Hpn).
    pose proof (Z.mul_succ_div_gt (Zpos mx) (2 ^ n) Hpn). lia. }
  unfold binary_round_aux, shr_fexp. cbn [Zdigits2]. fold d.
  replace (fexp prec emax (d + ex) - ex) with n
    by (unfold fexp, SpecFloat.emin, prec, emax, n; lia).
  destruct (shr_spec (shr_record_of_loc (Zpos mx) lx) ex n) as [S1 S2];
    [rewrite shr_m_of_loc; lia | exact Hn |].
  rewrite shr_m_of_loc in S1. fold k in S1.
  destruct (shr (shr_record_of_loc (Zpos mx) lx) ex n) as [mrs1 e1].
  cbn [fst snd] in S1, S2. subst e1. rewrite S1.
  set (l1 := loc_of_shr_record mrs1).
  destruct (round_nearest_even_cases k l1) as [R | R]; rewrite R.
  - (* the truncated mantissa *)
    destruct k as [|q|q] eqn:Ek; try lia.
    assert (Hq : Zpos (digits2_pos q) = 53)
      by (apply digits2_pos_unique; change (2 ^ (53 - 1)) with (2 ^ 52); lia).
    cbn [Zdigits2]. rewrite Hq.
    replace (fexp prec emax (53 + (ex + n)) - (ex + n)) with 0
      by (unfold fexp, SpecFloat.emin, prec, emax, n; lia).
    cbn [shr shr_record_of_loc shr_m].
    replace (ex + n <=? emax - prec) with true
      by (symmetry; apply Z.leb_le; unfold emax, prec, n; lia).
    exists q, (ex + n). split; [reflexivity|]. split; [exact Hq|].
    split; [lia|]. replace (ex + n - ex) with n by lia. lia.
  - (* the next mantissa *)
    destruct (Z.eq_dec (k + 1) (2 ^ 53)) as [Hc | Hc].
    + (* a carry: 2^53 is renormalized to 2^52 *)
      rewrite Hc. change (2 ^ 53) with (Zpos (2 ^ 53)%positive).
      cbn [Zdigits2].
      replace (Zpos (digits2_pos (2 ^ 53)%positive)) with 54 by reflexivity.
      replace (fexp prec emax (54 + (ex + n)) - (ex + n)) with 1
        by (unfold fexp, SpecFloat.emin, prec, emax, n; lia).
      cbn [shr shr_record_of_loc iter_pos].
      replace (shr_m (shr_1 {| shr_m := Zpos (2 ^ 53)%positive;
                               shr_r := false; shr_s := false |}))
        with (Zpos (2 ^ 52)%positive) by reflexivity.
      replace (ex + n + 1 <=? emax - prec) with true
        by (symmetry; apply Z.leb_le; unfold emax, prec, n; lia).
      exists (2 ^ 52)%positive, (ex + n + 1).
      split; [reflexivity|]. split; [reflexivity|]. split; [lia|].
      replace (ex + n + 1 - ex) with (n + 1) by lia.
      rewrite Z.pow_add_r, Z.pow_1_r by lia.
      change (Zpos (2 ^ 52)%positive) with (2 ^ 52).
      change (2 ^ 53) with (2 * 2 ^ 52) in Hc. nia.
    + destruct (k + 1) as [|q|q] eqn:Ek; try lia.
      assert (Hq : Zpos (digits2_pos q) = 53)
        by (apply digits2_pos_unique; change (2 ^ (53 - 1)) with (2 ^ 52); lia).
      cbn [Zdigits2]. rewrite Hq.
      replace (fexp prec emax (53 + (ex + n)) - (ex + n)) with 0
        by (unfold fexp, SpecFloat.emin, prec, emax, n; lia).
      cbn [shr shr_record_of_loc shr_m].
      replace (ex + n <=? emax - prec) with true
        by (symmetry; apply Z.leb_le; unfold emax, prec, n; lia).
      exists q, (ex + n). split; [reflexivity|]. split; [exact Hq|].
      split; [lia|]. replace (ex + n - ex) with n by lia. lia.
Qed.

Lemma digits2_pos_bounds (p : positive) (a b : Z) :
  0 <= a -> 2 ^ a <= Zpos p < 2 ^ b -> a < Zpos (digits2_pos p) <= b.
Proof.
  intros Ha [Hl Hu].
  pose proof (digits2_pos_lower p) as Dl.
  pose proof (digits2_pos_upper p) as Du.
  split.
  - apply (Z.pow_lt_mono_r_iff 2); lia.
  - assert (Zpos (digits2_pos p) - 1 < b); [|lia].
    apply (Z.pow_lt_mono_r_iff 2); try lia.
    destruct (Z_lt_le_dec b 0); [|lia].
    rewrite Z.pow_neg_r in Hu by lia. lia.
Qed.

Lemma digits_53_bounds (m : positive) :
  Zpos (digits2_pos m) = 53 -> 2 ^ 52 <= Zpos m < 2 ^ 53.
Proof.
  intros H. pose proof (digits2_pos_lower m) as Dl.
  pose proof (digits2_pos_upper m) as Du. rewrite H in Dl, Du.
  change (2 ^ (53 - 1)) with (2 ^ 52) in Dl. lia.
Qed.

(** The product of two 53-bit numbers is within one unit of the last
    place of the exact product. *)
Lemma mul_near (m1 m2 : positive) (e1 e2 : Z) :
  Zpos (digits2_pos m1) = 53 -> Zpos (digits2_pos m2) = 53 ->
  -1074 <= e1 + e2 + 52 -> e1 + e2 + 53 < 971 ->
  exists m e,
    mul (S754_finite false m1 e1) (S754_finite false m2 e2)
    = S754_finite false m e
    /\ Zpos (digits2_pos m) = 53
    /\ e1 + e2 <= e
    /\ Zpos m1 * Zpos m2 - 2 ^ (e - (e1 + e2))
       <= Zpos m * 2 ^ (e - (e1 + e2))
       <= Zpos m1 * Zpos m2 + 2 ^ (e - (e1 + e2)).
Proof.
  intros H1 H2 Hlo Hhi.
  apply digits_53_bounds in H1. apply digits_53_bounds in H2.
  assert (Hd : 104 < Zpos (digits2_pos (m1 * m2)) <= 106).
  { apply digits2_pos_bounds; [lia|]. rewrite Pos2Z.inj_mul.
    change (2 ^ 104) with (2 ^ 52 * 2 ^ 52).
    change (2 ^ 106) with (2 ^ 53 * 2 ^ 53). nia. }
  unfold mul, SFmul. cbn [xorb].
  destruct (binary_round_aux_near false (m1 * m2) (e1 + e2) loc_Exact)
    as (m & e & E & Hm & He & Hb); try lia.
  exists m, e. rewrite Pos2Z.inj_mul in Hb. auto.
Qed.

(** The quotient of two 53-bit numbers is within two units of the last
    place of the exact quotient. *)
Lemma div_near (m1 m2 : positive) (e1 e2 : Z) :
  Zpos (digits2_pos m1) = 53 -> Zpos (digits2_pos m2) = 53 ->
  -1074 <= e1 - e2 - 53 -> e1 - e2 + 1 < 971 ->
  exists m e,
    div (S754_finite false m1 e1) (S754_finite false m2 e2)
    = S754_finite false m e
    /\ Zpos (digits2_pos m) = 53
    /\ e1 - e2 - 53 <= e
    /\ Zpos m1 * 2 ^ 53 - 2 * Zpos m2 * 2 ^ (e - (e1 - e2 - 53))
       <= Zpos m * Zpos m2 * 2 ^ (e - (e1 - e2 - 53))
       <= Zpos m1 * 2 ^ 53 + 2 * Zpos m2 * 2 ^ (e - (e1 - e2 - 53)).
Proof.
  intros H1 H2 Hlo Hhi.
  unfold div, SFdiv, SFdiv_core_binary. cbn [xorb Zdigits2].
  rewrite H1, H2.
  replace (Z.min (fexp prec emax (53 + e1 - (53 + e2))) (e1 - e2))
    with (e1 - e2 - 53)
    by (unfold fexp, SpecFloat.emin, prec, emax; lia).
  replace (e1 - e2 - (e1 - e2 - 53)) with 53 by lia.
  rewrite Z.shiftl_mul_pow2 by lia.
  apply digits_53_bounds in H1. apply digits_53_bounds in H2.
  pose proof (Z_div_mod (Zpos m1 * 2 ^ 53) (Zpos m2) eq_refl) as Hqr.
  destruct (Z.div_eucl (Zpos m1 * 2 ^ 53) (Zpos m2)) as [q r].
  destruct Hqr as [Hq Hr].
  assert (Hqb : 2 ^ 52 <= q < 2 ^ 54).
  { change (2 ^ 54) with (2 * 2 ^ 53). change (2 ^ 53) with (2 * 2 ^ 52) in *.
    nia. }
  destruct q as [|qp|qp]; try lia.
  assert (Hd : 52 < Zpos (digits2_pos qp) <= 54)
    by (apply digits2_pos_bounds; lia).
  destruct (binary_round_aux_near false qp (e1 - e2 - 53)
              (new_location (Zpos m2) r))
    as (m & e & E & Hm & He & Hb); try lia.
  exists m, e. split; [exact E|]. split; [exact Hm|]. split; [exact He|].
  set (T := 2 ^ (e - (e1 - e2 - 53))) in *.
  assert (HT : 1 <= T)
    by (unfold T; pose proof (Z.pow_pos_nonneg 2 (e - (e1 - e2 - 53)));
        lia).
  nia.
Qed.

(** Cancelling a positive factor. *)
Lemma between_cancel (x y z t : Z) :
  0 < t -> y * t - z * t <= x * t <= y * t + z * t -> y - z <= x <= y + z.
Proof. intros Ht [H1 H2]. split; nia. Qed.

(** Arithmetic of the error bounds, on abstract scalings. *)

Lemma scaled_factor_le (B X mr mp T : Z) :
  0 < B -> B <= mr -> mp < 2 * B -> 0 < X -> 0 < T ->
  X * mr - T <= mp * T -> X <= 2 * T.
Proof.
  intros HB Hmr Hmp HX HT H.
  assert (H1 : X * B <= X * mr) by (apply Z.mul_le_mono_nonneg_l; lia).
  assert (H2 : (mp + 1) * T <= 2 * B * T)
    by (apply Z.mul_le_mono_nonneg_r; lia).
  assert (H3 : B * X <= B * (2 * T)) by lia.
  apply Z.mul_le_mono_pos_l in H3; lia.
Qed.

Lemma errors_add (X M PD w mr mp T : Z) :
  0 < X -> 0 < w -> 0 < T -> X <= 2 * T ->
  M * PD - 2 * w <= mr * w <= M * PD + 2 * w ->
  X * mr - T <= mp * T <= X * mr + T ->
  X * (M * PD) - 5 * (w * T) <= mp * (w * T) <= X * (M * PD) + 5 * (w * T).
Proof.
  intros HX Hw HT HXT [R1 R1'] [R2 R2'].
  assert (L1 : X * (M * PD - 2 * w) <= X * (mr * w))
    by (apply Z.mul_le_mono_nonneg_l; lia).
  assert (L2 : X * (mr * w) <= X * (M * PD + 2 * w))
    by (apply Z.mul_le_mono_nonneg_l; lia).
  assert (L3 : (X * mr - T) * w <= mp * T * w)
    by (apply Z.mul_le_mono_nonneg_r; lia).
  assert (L4 : mp * T * w <= (X * mr + T) * w)
    by (apply Z.mul_le_mono_nonneg_r; lia).
  assert (L5 : X * w <= 2 * T * w)
    by (apply Z.mul_le_mono_nonneg_r; lia).
  replace (mp * (w * T)) with (mp * T * w) by ring.
  split; lia.
Qed.

Lemma scale_gap (mp w T PG N : Z) :
  2 ^ 52 <= mp -> 0 < w -> 0 < T -> 0 < PG -> 0 <= N < 2 ^ 48 ->
  mp * (w * T) <= N * PG + 5 * (w * T) -> 8 * T < PG.
Proof.
  intros Hmp Hw HT HPG HN H.
  assert (H1 : 2 ^ 52 * (w * T) <= mp * (w * T))
    by (apply Z.mul_le_mono_nonneg_r; nia).
  assert (H2 : N * PG <= (2 ^ 48 - 1) * PG)
    by (apply Z.mul_le_mono_nonneg_r; lia).
  assert (H3 : 1 * T <= w * T) by (apply Z.mul_le_mono_nonneg_r; lia).
  lia.
Qed.

Lemma unit_gap (mp w PE N : Z) :
  2 ^ 52 <= mp -> 0 < w -> 0 < PE -> 0 <= N < 2 ^ 48 ->
  mp * w <= N * PE + 5 * w -> 6 * w <= PE.
Proof.
  intros Hmp Hw HPE HN H.
  assert (H1 : 2 ^ 52 * w <= mp * w)
    by (apply Z.mul_le_mono_nonneg_r; lia).
  assert (H2 : N * PE <= (2 ^ 48 - 1) * PE)
    by (apply Z.mul_le_mono_nonneg_r; lia).
  lia.
Qed.

Lemma floor_near (N w q rho mp PE k sigma : Z) :
  0 < w -> N = w * q + rho -> 0 <= rho < w ->
  mp = PE * k + sigma -> 0 <= sigma < PE ->
  6 * w <= PE ->
  N * PE - 5 * w <= mp * w <= N * PE + 5 * w ->
  q - 1 <= k <= q /\ (rho <> 0 -> k = q).
Proof.
  intros Hw HN Hrho Hmp Hsigma H6 [HR HR']. subst N mp.
  assert (E1 : (w * q + rho) * PE = q * (PE * w) + rho * PE) by ring.
  assert (E2 : (PE * k + sigma) * w = k * (PE * w) + sigma * w) by ring.
  rewrite E1, E2 in *.
  assert (Hpw : 0 < PE * w) by nia.
  assert (Hs : 0 <= sigma * w < PE * w) by nia.
  assert (Hr : 0 <= rho * PE <= PE * w - PE) by nia.
  assert (Hlow : q - 1 <= k).
  { destruct (Z_le_gt_dec (q - 1) k) as [|Hc]; [assumption|]. exfalso.
    assert ((k + 2) * (PE * w) <= q * (PE * w))
      by (apply Z.mul_le_mono_nonneg_r; lia).
    assert (5 * w < PE * w) by nia.
    lia. }
  assert (Hup : k <= q).
  { destruct (Z_le_gt_dec k q) as [|Hc]; [assumption|]. exfalso.
    assert ((q + 1) * (PE * w) <= k * (PE * w))
      by (apply Z.mul_le_mono_nonneg_r; lia).
    lia. }
  split; [lia|]. intros Hne.
  destruct (Z.eq_dec k q) as [|Hkq]; [assumption|]. exfalso.
  assert (k = q - 1) by lia. subst k.
  assert (PE <= rho * PE) by nia.
  lia.
Qed.

(** *** The quotient and the product of the pipeline *)

Section Ratio.

Variables pw pmw : positive.
Let w := Zpos pw.
Let mw := Zpos pmw.
Hypothesis Hw : w < 2 ^ 53.
Hypothesis Hmw : mw < w.

Let a := - exponent pmw.
Let b := - exponent pw.

(** The quotient [maxWidth / w], computed in binary64. *)
Lemma ratio_near :
  exists mr Dr,
    div (of_Z mw) (of_Z w) = S754_finite false mr (- Dr)
    /\ Zpos (digits2_pos mr) = 53
    /\ 52 <= Dr <= 106
    /\ mw * 2 ^ Dr - 2 * w <= Zpos mr * w <= mw * 2 ^ Dr + 2 * w.
Proof.
  assert (Hmw' : mw < 2 ^ 53) by lia.
  pose proof (exponent_range pw Hw) as Rb.
  pose proof (exponent_range pmw Hmw') as Ra.
  pose proof (mantissa_value pw Hw) as Vw.
  pose proof (mantissa_value pmw Hmw') as Vmw.
  pose proof (mantissa_digits pw Hw) as Dw.
  pose proof (mantissa_digits pmw Hmw') as Dmw.
  change (of_Z mw) with (of_Z (Zpos pmw)).
  change (of_Z w) with (of_Z (Zpos pw)).
  rewrite (of_Z_pos pmw Hmw'), (of_Z_pos pw Hw).
  destruct (div_near (mantissa pmw) (mantissa pw) (exponent pmw) (exponent pw))
    as (mr & er & E & Hm & He & Hb); try assumption; try lia.
  fold a in Vmw. fold b in Vw. fold w in Vw. fold mw in Vmw.
  set (Tr := er - (exponent pmw - exponent pw - 53)) in *.
  assert (HTr : 0 <= Tr) by (unfold Tr; lia).
  rewrite Vw, Vmw in Hb.
  pose proof (digits_53_bounds mr Hm) as Bmr.
  assert (Pa : 0 < 2 ^ a) by (apply Z.pow_pos_nonneg; unfold a; lia).
  assert (Pb : 0 < 2 ^ b) by (apply Z.pow_pos_nonneg; unfold b; lia).
  assert (PT : 0 < 2 ^ Tr) by (apply Z.pow_pos_nonneg; lia).
  (* the exponent of the quotient is below -51 *)
  assert (HD : b + Tr < a + 2).
  { assert (Hlt : 2 ^ (51 + (b + Tr)) < 2 ^ (a + 53)).
    { rewrite !Z.pow_add_r by (unfold a, b; lia).
      assert (H1 : (Zpos mr - 2) * (w * 2 ^ b * 2 ^ Tr)
                   <= mw * 2 ^ a * 2 ^ 53) by nia.
      assert (H2 : 2 ^ 51 * (w * 2 ^ b * 2 ^ Tr)
                   <= (Zpos mr - 2) * (w * 2 ^ b * 2 ^ Tr)).
      { apply Z.mul_le_mono_nonneg_r; [nia|].
        change (2 ^ 52) with (2 * 2 ^ 51) in Bmr. lia. }
      assert (H3 : mw * (2 ^ a * 2 ^ 53) < w * (2 ^ a * 2 ^ 53)) by nia.
      assert (H4 : w * (2 ^ 51 * (2 ^ b * 2 ^ Tr)) < w * (2 ^ a * 2 ^ 53))
        by nia.
      apply Z.mul_lt_mono_pos_l in H4; [|unfold w; lia]. lia. }
    apply Z.pow_lt_mono_r_iff in Hlt; unfold a, b in *; lia. }
  exists mr, (a + 53 - b - Tr).
  split; [rewrite E; f_equal; unfold Tr, a, b; lia|].
  split; [exact Hm|].
  split; [unfold a, b in *; lia|].
  set (Dr := a + 53 - b - Tr).
  assert (HDr : 0 <= Dr) by (unfold Dr; lia).
  assert (Hsplit : 2 ^ a * 2 ^ 53 = 2 ^ Dr * (2 ^ b * 2 ^ Tr)).
  { rewrite <- !Z.pow_add_r by (unfold a, b in *; lia).
    f_equal. unfold Dr. lia. }
  apply (between_cancel _ _ _ (2 ^ b * 2 ^ Tr)); [nia|].
  assert (Heq : mw * 2 ^ a * 2 ^ 53 = mw * 2 ^ Dr * (2 ^ b * 2 ^ Tr))
    by (rewrite <- !Z.mul_assoc, Hsplit; ring).
  rewrite Heq in Hb. lia.
Qed.

End Ratio.

Section Height.

Variables pw ph pmw : positive.
Let w := Zpos pw.
Let h := Zpos ph.
Let mw := Zpos pmw.
Hypothesis Hw : w < 2 ^ 53.
Hypothesis Hmw : mw < w.
Hypothesis Hprod : h * mw < 2 ^ 48.

Let c := - exponent ph.

Lemma height_bounds_h : h < 2 ^ 53.
Proof. change (2 ^ 53) with (2 ^ 5 * 2 ^ 48). subst h mw w. nia. Qed.

(** The product [h * (maxWidth / w)], computed in binary64. *)
Lemma product_near :
  exists mp E,
    mul (of_Z h) (div (of_Z mw) (of_Z w)) = S754_finite false mp (- E)
    /\ Zpos (digits2_pos mp) = 53
    /\ 0 < E
    /\ 6 * w <= 2 ^ E
    /\ h * mw * 2 ^ E - 5 * w <= Zpos mp * w <= h * mw * 2 ^ E + 5 * w.
Proof.
  destruct (ratio_near pw pmw Hw Hmw) as (mr & Dr & Er & Hmr & HDr & R1).
  fold w mw in Er, R1.
  pose proof height_bounds_h as Hh.
  pose proof (exponent_range ph Hh) as Rc.
  pose proof (mantissa_value ph Hh) as Vh.
  pose proof (mantissa_digits ph Hh) as Dh.
  rewrite Er. change (of_Z h) with (of_Z (Zpos ph)).
  rewrite (of_Z_pos ph Hh).
  destruct (mul_near (mantissa ph) mr (exponent ph) (- Dr))
    as (mp & ep & E & Hmp & Hep & R2); try assumption; try lia.
  fold c in Vh. fold h in Vh. rewrite Vh in R2.
  set (Tp := ep - (exponent ph + - Dr)) in *.
  assert (HTp : 0 <= Tp) by (unfold Tp; lia).
  pose proof (digits_53_bounds mr Hmr) as Bmr.
  pose proof (digits_53_bounds mp Hmp) as Bmp.
  assert (Hc : 0 <= c) by (unfold c; lia).
  assert (Pc : 0 < 2 ^ c) by (apply Z.pow_pos_nonneg; lia).
  assert (PT : 0 < 2 ^ Tp) by (apply Z.pow_pos_nonneg; lia).
  assert (Hw0 : 0 < w) by (unfold w; lia).
  assert (Hh0 : 0 < h) by (unfold h; lia).
  assert (Hmw0 : 0 < mw) by (unfold mw; lia).
  assert (HN : 0 <= h * mw < 2 ^ 48)
    by (split; [apply Z.mul_nonneg_nonneg; lia | exact Hprod]).
  set (X := h * 2 ^ c) in *.
  assert (HX : 0 < X) by (unfold X; apply Z.mul_pos_pos; lia).
  set (G := c + Dr).
  assert (PG : 0 < 2 ^ G) by (apply Z.pow_pos_nonneg; unfold G; lia).
  assert (HXG : X * (mw * 2 ^ Dr) = h * mw * 2 ^ G)
    by (unfold X, G; rewrite Z.pow_add_r by lia; ring).
  (* the height scaled to the mantissa is at most two units *)
  assert (H1 : X <= 2 * 2 ^ Tp).
  { apply (scaled_factor_le (2 ^ 52) X (Zpos mr) (Zpos mp) (2 ^ Tp));
      lia. }
  (* the two rounding errors together *)
  pose proof (errors_add X mw (2 ^ Dr) w (Zpos mr) (Zpos mp) (2 ^ Tp)
                HX Hw0 PT H1 R1 R2) as H2.
  rewrite HXG in H2.
  assert (H3 : Tp + 3 < G).
  { assert (Hlt : 2 ^ (Tp + 3) < 2 ^ G).
    { rewrite Z.pow_add_r by lia. change (2 ^ 3) with 8.
      rewrite Z.mul_comm.
      apply (scale_gap (Zpos mp) w (2 ^ Tp) (2 ^ G) (h * mw)); lia. }
    apply Z.pow_lt_mono_r_iff in Hlt; unfold G; lia. }
  exists mp, (G - Tp).
  assert (PE : 0 < 2 ^ (G - Tp)) by (apply Z.pow_pos_nonneg; lia).
  assert (HE : 2 ^ G = 2 ^ (G - Tp) * 2 ^ Tp)
    by (rewrite <- Z.pow_add_r by lia; f_equal; lia).
  split; [rewrite E; f_equal; unfold Tp, G, c; lia|].
  split; [exact Hmp|]. split; [lia|].
  assert (H4 : h * mw * 2 ^ (G - Tp) - 5 * w <= Zpos mp * w
               <= h * mw * 2 ^ (G - Tp) + 5 * w).
  { apply (between_cancel _ _ _ (2 ^ Tp)); [exact PT|].
    rewrite HE in H2. lia. }
  split; [|exact H4].
  apply (unit_gap (Zpos mp) w (2 ^ (G - Tp)) (h * mw)); lia.
Qed.

(** The height the code computes is the exact quotient or one less; it
    is the exact quotient when the division leaves a remainder. *)
Lemma height_near :
  exists k,
    Math_floor (mul (of_Z h) (div (of_Z mw) (of_Z w))) = of_Z k
    /\ 0 <= k
    /\ h * mw / w - 1 <= k <= h * mw / w
    /\ ((h * mw) mod w <> 0 -> k = h * mw / w).
Proof.
  destruct product_near as (mp & E & Ep & Hmp & HE & H6 & HR).
  assert (Hw0 : 0 < w) by (unfold w; lia).
  assert (PE : 0 < 2 ^ E) by (apply Z.pow_pos_nonneg; lia).
  exists (Zpos mp / 2 ^ E).
  split.
  { rewrite Ep. unfold Math_floor, floor_Z.
    replace (0 <=? - E) with false by (symmetry; apply Z.leb_gt; lia).
    cbn [cond_Zopp]. rewrite Z.opp_involutive. reflexivity. }
  split; [apply Z.div_pos; lia|].
  apply (floor_near (h * mw) w _ _ (Zpos mp) (2 ^ E) _
           (Zpos mp mod 2 ^ E)).
  - exact Hw0.
  - apply Z.div_mod. lia.
  - apply Z.mod_pos_bound. exact Hw0.
  - apply Z.div_mod. lia.
  - apply Z.mod_pos_bound. exact PE.
  - exact H6.
  - exact HR.
Qed.

End Height.

(** *** The derived height *)

Lemma newDimensions_scaled (w h mw : Z) :
  0 < mw -> mw < w -> w < 2 ^ 53 -> 0 <= h -> h * mw < 2 ^ 48 ->
  exists k,
    newDimensions {| img_width := w; img_height := h |} (of_Z mw)
    = (of_Z mw, of_Z k)
    /\ 0 <= k <= h
    /\ h * mw / w - 1 <= k <= h * mw / w
    /\ ((h * mw) mod w <> 0 -> k = h * mw / w).
Proof.
  intros Hmw0 Hlt Hw Hh Hprod.
  rewrite newDimensions_downscale by lia.
  assert (Hq : h * mw / w <= h).
  { apply Z.div_le_upper_bound; [lia|]. rewrite Z.mul_comm.
    apply Z.mul_le_mono_nonneg_r; lia. }
  destruct w as [|pw|pw]; try lia.
  destruct mw as [|pmw|pmw]; try lia.
  destruct h as [|ph|ph]; try lia.
  - destruct (ratio_near pw pmw Hw Hlt) as (mr & Dr & Er & _).
    exists 0. rewrite Er. split; [reflexivity|].
    rewrite Z.mul_0_l, Z.div_0_l, Z.mod_0_l by lia. lia.
  - destruct (height_near pw ph pmw Hw Hlt Hprod) as (k & Ek & Hk0 & Hk & Hx).
    exists k. cbv zeta in Ek. rewrite Ek.
    split; [reflexivity|]. split; [lia|]. split; [exact Hk | exact Hx].
Qed.

(** When the image is wider than [maxWidth], the derived width is
    [maxWidth] and the derived height is [floor (h * maxWidth / w)] or one
    less; it is that floor whenever [w] does not divide [h * maxWidth],
    and it never exceeds the height of the source. *)
Theorem newDimensions_scaled_height (w h mw : Z) :
  0 < mw -> mw < w -> w < 2 ^ 53 -> 0 <= h -> h * mw < 2 ^ 48 ->
  exists k,
    newDimensions {| img_width := w; img_height := h |} (of_Z mw)
    = (of_Z mw, of_Z k)
    /\ 0 <= k <= h
    /\ h * mw / w - 1 <= k <= h * mw / w
    /\ ((h * mw) mod w <> 0 -> k = h * mw / w).
Proof. exact (newDimensions_scaled w h mw). Qed.

Lemma newDimensions_scaled_height_witness :
  exists k,
    newDimensions {| img_width := 770; img_height := 77 |} (of_Z 400)
    = (of_Z 400, of_Z k)
    /\ 0 <= k <= 77
    /\ 77 * 400 / 770 - 1 <= k <= 77 * 400 / 770
    /\ ((77 * 400) mod 770 <> 0 -> k = 77 * 400 / 770).
Proof.
  apply (newDimensions_scaled_height 770 77 400); lia.
Defined.

(** With the widths of the selector the bound holds for every image whose
    sides fit in 32 bits. *)
Corollary newDimensions_selector_widths (w h mw : Z) :
  In mw widths -> mw < w -> w < 2 ^ 32 -> 0 <= h < 2 ^ 32 ->
  exists k,
    newDimensions {| img_width := w; img_height := h |} (of_Z mw)
    = (of_Z mw, of_Z k)
    /\ h * mw / w - 1 <= k <= h * mw / w.
Proof.
  intros Hin Hlt Hw Hh.
  assert (Hmw : 0 < mw <= 2000).
  { unfold widths in Hin. cbn [In] in Hin.
    repeat (destruct Hin as [<- | Hin]; [lia|]). destruct Hin. }
  assert (Hprod : h * mw < 2 ^ 48).
  { assert (h * mw <= h * 2000) by (apply Z.mul_le_mono_nonneg_l; lia).
    lia. }
  destruct (newDimensions_scaled w h mw) as (k & E & _ & Hk & _);
    try lia.
  exists k. split; assumption.
Qed.

(** The derived image is never larger than the source, and never wider
    than [maxWidth]. *)
Theorem derived_never_larger (w h mw : Z) :
  0 <= w < 2 ^ 53 -> 0 <= h -> 0 < mw < 2 ^ 53 -> h * mw < 2 ^ 48 ->
  exists w' h',
    newDimensions {| img_width := w; img_height := h |} (of_Z mw)
    = (of_Z w', of_Z h')
    /\ 0 <= w' <= w /\ w' <= mw /\ 0 <= h' <= h.
Proof.
  intros Hw Hh Hmw Hprod.
  destruct (Z_lt_le_dec mw w) as [Hlt | Hle].
  - destruct (newDimensions_scaled w h mw) as (k & E & Hk & _);
      try lia.
    exists mw, k. split; [exact E | lia].
  - exists w, h. rewrite newDimensions_no_upscaling_Z by lia.
    split; [reflexivity | lia].
Qed.

Lemma derived_never_larger_witness :
  exists w' h',
    newDimensions {| img_width := 1600; img_height := 1200 |} (of_Z 800)
    = (of_Z w', of_Z h')
    /\ 0 <= w' <= 1600 /\ w' <= 800 /\ 0 <= h' <= 1200.
Proof.
  apply (derived_never_larger 1600 1200 800); lia.
Defined.

Lemma newDimensions_width_le_witness :
  le (fst (newDimensions {| img_width := 1600; img_height := 1200 |}
             (decimal 7995 1)))
     (decimal 7995 1) = true.
Proof.
  apply (newDimensions_width_le {| img_width := 1600; img_height := 1200 |}
           (decimal 7995 1)).
  - cbn [img_width]. lia.
  - vm_compute. discriminate.
Defined.

(** The bounds that the selector keeps away: a [maxWidth] that is not a
    number leaves every image as it is, and a [maxWidth] of zero turns
    every image of positive width into an empty canvas. *)
Theorem newDimensions_degenerate_maxWidth (w h : Z) :
  0 < w < 2 ^ 53 -> 0 <= h < 2 ^ 53 ->
  newDimensions {| img_width := w; img_height := h |} S754_nan
  = (of_Z w, of_Z h)
  /\ newDimensions {| img_width := w; img_height := h |} (of_Z 0)
     = (of_Z 0, of_Z 0).
Proof.
  intros Hw Hh. split.
  - unfold newDimensions, gt, SFltb. reflexivity.
  - rewrite newDimensions_downscale by lia.
    destruct w as [|pw|pw]; try lia. destruct h as [|ph|ph]; try lia.
    + rewrite (of_Z_pos pw) by lia. reflexivity.
    + rewrite (of_Z_pos pw), (of_Z_pos ph) by lia. reflexivity.
Qed.

Lemma newDimensions_degenerate_maxWidth_witness :
  newDimensions {| img_width := 1600; img_height := 1200 |} S754_nan
  = (of_Z 1600, of_Z 1200)
  /\ newDimensions {| img_width := 1600; img_height := 1200 |} (of_Z 0)
     = (of_Z 0, of_Z 0).
Proof.
  apply (newDimensions_degenerate_maxWidth 1600 1200); lia.
Defined.


(** ** Runs in flight *)

(** A run whose callbacks fire at once is the run of [processImage]. *)
Lemma processImage_callbacks (h : Host) (file : option File)
  (quality dimensions : number) (s : State) :
  processImage h file quality dimensions s
  = (p <- processImage_start file quality dimensions ;;
     match p with
     | None => ret tt
     | Some r =>
         p' <- complete h r ;;
         match p' with
         | None => ret tt
         | Some r' => complete h r' ;; ret tt
         end
     end) s.
Proof.
  destruct file as [f|]; [|reflexivity].
  unfold processImage, processImage_start, complete, compressImage,
    reader_onload, reader_onerror, img_onload, img_onerror.
  cbn. destruct (readAsDataURL h f) as [url|]; [|reflexivity].
  cbn. destruct (decode h url); reflexivity.
Qed.

Lemma wrun_reachable (h : Host) (ls : list Label) (w : World) :
  wreachable w -> Forall wselectable ls -> wreachable (fst (wrun h ls w)).
Proof.
  revert w. induction ls as [|l ls IH]; intros w Hw Hls; [exact Hw|].
  inversion Hls as [|l0 ls0 Hl Hls']; subst.
  cbn [wrun].
  pose proof (wreachable_step h l w Hw Hl) as H1.
  destruct (wstep h l w) as [w1 c1]. cbn [fst] in H1.
  specialize (IH w1 H1 Hls').
  destruct (wrun h ls w1) as [w2 c2]. exact IH.
Qed.

Lemma handler_error_known (h : Host) (ev : Event) (s : State) :
  error_is_known (error s) ->
  error_is_known (error (state_after (handler h ev) s)).
Proof.
  intros IH. destruct s as [file url img ld err q d]. cbn [error] in IH.
  destruct ev as [files | value | value | ]; cbn [handler].
  - destruct files as [|g rest]; [right; left; reflexivity|].
    unfold state_after, handleImageUpload.
    destruct (negb (prefix "image/" (file_type g))); cbn;
      [right; right; left; reflexivity | left; reflexivity].
  - exact IH.
  - exact IH.
  - unfold state_after, handleDownloadCompressed, bind, get.
    cbn [compressedImage].
    destruct img as [u|]; [destruct (truthy (Some u))|]; exact IH.
Qed.

Lemma toDataURL_prefix (h : Host) (c : Canvas) (type : string)
  (quality : number) :
  prefix "data:" (toDataURL h c type quality) = true.
Proof. unfold toDataURL. cbn. destruct (encode h c type quality); reflexivity. Qed.

Lemma wstep_invariant (h : Host) (l : Label) (w : World) :
  wselectable l -> world_invariant w -> world_invariant (fst (wstep h l w)).
Proof.
  intros Hl (Hq & Hd & Hload & Hsrc & Herr & Hdata).
  destruct l as [ev | i]; cbn [wstep wselectable] in *.
  - (* the user acts *)
    destruct (handler_frame h ev (state w) Hl Hq Hd)
      as (H1 & H2 & H3 & H4 & H5).
    pose proof (handler_source_is_image h ev (state w) Hsrc) as H6.
    pose proof (handler_error_known h ev (state w) Herr) as H7.
    unfold state_after in *.
    destruct (handler h ev (state w)) as [[u s1] l1]. cbn [fst snd] in *.
    destruct (deps_changed (state w) s1).
    + destruct s1 as [file url img ld err q d].
      unfold source_is_image in H6.
      cbn [originalFile originalImageUrl compressedImage loading error
           imageQuality imageDimensions] in *.
      destruct file as [f|]; cbn [processImage_start bind setError setLoading
        call ret setCompressedImage setOriginalImageUrl run_list fst snd
        originalFile originalImageUrl compressedImage loading error
        imageQuality imageDimensions]; invariant_goals; try assumption.
      * intros _ E. apply app_eq_nil in E. destruct E; discriminate.
      * left. reflexivity.
      * intros data E. apply Hdata. congruence.
      * intros E. rewrite app_nil_r. apply Hload. congruence.
      * discriminate.
    + cbn [fst]. invariant_goals; try assumption.
      * intros E. apply Hload. congruence.
      * intros data E. apply Hdata. congruence.
  - (* a callback fires *)
    destruct (nth_error (pending w) i) as [p|] eqn:E;
      [|cbn [fst]; invariant_goals; assumption].
    destruct w as [s pend]. destruct s as [file url img ld err q d].
    unfold source_is_image in Hsrc.
    cbn [state pending originalFile originalImageUrl compressedImage loading
         error imageQuality imageDimensions] in *.
    destruct p as [f q0 d0 | u q0 d0]; unfold complete.
    + destruct (readAsDataURL h f) as [u|]; cbn; invariant_goals;
        try assumption; try discriminate.
      * intros _ E'. apply app_eq_nil in E'. destruct E' as [_ E'].
        discriminate.
      * right. right. right. left. reflexivity.
    + destruct (decode h u) as [im|]; cbn -[toDataURL]; invariant_goals;
        try assumption; try discriminate.
      * intros data E'. injection E' as <-. apply toDataURL_prefix.
      * right. right. right. right. reflexivity.
Qed.

Lemma wreachable_world_invariant (w : World) :
  wreachable w -> world_invariant w.
Proof.
  induction 1 as [|h l w Hw IH Hl].
  - invariant_goals; try discriminate.
    + unfold quality_ok. cbn. tauto.
    + unfold dimensions_ok. cbn. tauto.
    + left. reflexivity.
  - apply wstep_invariant; assumption.
Qed.

(** ** Downloading while a run is in flight *)

Lemma trace_quality_changed_selectable :
  Forall wselectable trace_quality_changed.
Proof.
  unfold trace_quality_changed.
  apply Forall_cons; [exact I|]. apply Forall_cons; [exact I|].
  apply Forall_cons; [exact I|]. apply Forall_cons; [|apply Forall_nil].
  cbn [wselectable selectable]. unfold quality_ok, quality_options.
  cbn [map fst In]. do 5 right. left. reflexivity.
Qed.


(** ** An empty selection after a late run *)

(** C9, counterexample. An image file is selected and, while it is being
    read, a file that is not an image is selected, which clears the
    source file; the run of the first file then completes and writes the
    preview and the compressed image. An empty selection now surfaces the
    message and finds the source file already null: no dependency
    changed, the effect does not run, and the preview and the compressed
    image stay. *)
Lemma empty_selection_keeps_late_images :
  let h := host_tagging in
  let w := fst (wrun h trace_late_run initial_world) in
  let w' := fst (wstep h (User (Upload [])) w) in
  wreachable w
  /\ originalFile (state w) = None
  /\ pending w = []
  /\ error (state w') = Some msg_select
  /\ originalFile (state w') = None
  /\ originalImageUrl (state w') = Some sample_url
  /\ compressedImage (state w')
     = Some "data:image/jpeg;q=70;w=800;base64,/9j/"
  /\ snd (wstep h (User (Upload [])) w) = []
  /\ step h (Upload []) (state w) = (tt, state w', [])
  /\ ~ (originalImageUrl (state w') = None
        /\ compressedImage (state w') = None).
Proof.
  cbv zeta. split.
  { apply wrun_reachable; [apply wreachable_initial|].
    unfold trace_late_run.
    repeat (apply Forall_cons; [exact I|]). apply Forall_nil. }
  do 8 (split; [vm_compute; reflexivity|]).
  intros [H _]. vm_compute in H. discriminate H.
Qed.

Lemma step_user (h : Host) (ev : Event) (w : World) :
  originalFile (state_after (handler h ev) (state w)) = None ->
  wstep h (User ev) w
  = ({| state := state_after (step h ev) (state w); pending := pending w |},
     calls_of (step h ev) (state w)).
Proof.
  intros Hf. rewrite step_state, step_calls. cbv zeta.
  unfold wstep, state_after, calls_of in *.
  destruct (handler h ev (state w)) as [[u s1] l1]. cbn [fst snd] in *.
  destruct (deps_changed (state w) s1); [|rewrite app_nil_r; reflexivity].
  rewrite (effect_without_file h s1 Hf).
  destruct s1 as [file url img ld err q d]. cbn [originalFile] in Hf.
  subst file. cbn. rewrite app_nil_r. reflexivity.
Qed.

Lemma step_upload_rejected (h : Host) (files : list File) (message : string)
  (s : State) :
  handleImageUpload files s
  = (tt, {| originalFile := None; originalImageUrl := originalImageUrl s;
            compressedImage := compressedImage s; loading := loading s;
            error := Some message; imageQuality := imageQuality s;
            imageDimensions := imageDimensions s |}, []) ->
  step h (Upload files) s = (tt, after_rejection message s, []).
Proof.
  intros Hh. unfold step, bind, get, handler, after_rejection.
  rewrite Hh. cbn [app].
  destruct s as [file url img ld err q d].
  unfold deps_changed.
  cbn [originalFile originalImageUrl compressedImage loading error
       imageQuality imageDimensions].
  rewrite !eqb_refl. destruct file as [f|]; cbn; reflexivity.
Qed.

(** C9, as the code has it. An empty selection makes no host call, sets
    the message and clears the source file. When a source file was held,
    the effect runs and sets the preview and the compressed image to
    [null]; when none was held, the effect does not run and both stay as
    they were. Runs in flight are left alone. *)
Theorem empty_selection_step (h : Host) (w : World) :
  let s := state w in
  let s' := after_rejection msg_select s in
  step h (Upload []) s = (tt, s', [])
  /\ wstep h (User (Upload [])) w
     = ({| state := s'; pending := pending w |}, [])
  /\ error s' = Some msg_select
  /\ originalFile s' = None
  /\ match originalFile s with
     | Some _ => originalImageUrl s' = None /\ compressedImage s' = None
     | None => originalImageUrl s' = originalImageUrl s
               /\ compressedImage s' = compressedImage s
     end.
Proof.
  cbv zeta.
  assert (Hstep : step h (Upload []) (state w)
                  = (tt, after_rejection msg_select (state w), []))
    by (apply step_upload_rejected; reflexivity).
  split; [exact Hstep|]. split.
  - rewrite step_user by reflexivity.
    unfold state_after, calls_of. rewrite Hstep. reflexivity.
  - unfold after_rejection.
    destruct (originalFile (state w)); repeat split.
Qed.



(** ** What holds while runs are in flight *)

(** In every state the component reaches, also while runs are in flight
    and after a late run: the quality and the width are among the options
    of the selectors, [loading] is on only while a run is in flight, the
    source file has a MIME type that starts with [image/], the error is
    one of the four messages, and a compressed image is a data URL. *)
Theorem wreachable_invariant (w : World) : wreachable w -> world_invariant w.
Proof. exact (wreachable_world_invariant w). Qed.

Lemma wreachable_invariant_witness :
  world_invariant (fst (wrun host_tagging trace_quality_changed initial_world)).
Proof.
  apply wreachable_invariant. apply wrun_reachable.
  - apply wreachable_initial.
  - apply trace_quality_changed_selectable.
Defined.

(** Whenever the state holds a compressed image, also while a run is in
    flight or after a late one, it is a data URL and the download handler
    appends, clicks and removes one link to it, named after the
    parameters selected at that moment, without changing the state. *)
Theorem compressed_image_downloads (h : Host) (w : World) (data : string) :
  wreachable w ->
  compressedImage (state w) = Some data ->
  let link := {| href := data;
                 download := download_name h (imageQuality (state w))
                               (imageDimensions (state w)) |} in
  prefix "data:" data = true
  /\ handleDownloadCompressed h (state w)
     = (tt, state w, [AppendChild link; Click link; RemoveChild link]).
Proof.
  intros Hw Hc link.
  destruct (wreachable_world_invariant w Hw) as (_ & _ & _ & _ & _ & Hdata).
  pose proof (Hdata data Hc) as Hp.
  split; [exact Hp|].
  apply handleDownloadCompressed_link; [exact Hc|].
  destruct data as [|c rest]; [discriminate Hp | reflexivity].
Qed.

Lemma compressed_image_downloads_witness :
  let h := host_tagging in
  let w := fst (wrun h trace_quality_changed initial_world) in
  let data := "data:image/jpeg;q=70;w=800;base64,/9j/" in
  let link := {| href := data;
                 download := download_name h (imageQuality (state w))
                               (imageDimensions (state w)) |} in
  prefix "data:" data = true
  /\ handleDownloadCompressed h (state w)
     = (tt, state w, [AppendChild link; Click link; RemoveChild link]).
Proof.
  refine (compressed_image_downloads host_tagging
            (fst (wrun host_tagging trace_quality_changed initial_world))
            "data:image/jpeg;q=70;w=800;base64,/9j/" _ _).
  - apply wrun_reachable;
      [apply wreachable_initial | apply trace_quality_changed_selectable].
  - vm_compute. reflexivity.
Defined.

(** ** Selections that give no source file *)

Lemma render_after_rejection (message : string) (s : State) :
  truthy (Some message) = true ->
  let s' := after_rejection message s in
  error_paragraph (render s') = Some message
  /\ loading_indicator (render s') = loading_indicator (render s)
  /\ quality_select (render s') = imageQuality s
  /\ dimensions_select (render s') = imageDimensions s
  /\ match originalFile s with
     | Some _ =>
         original_panel (render s') = Placeholder "No original image uploaded"
         /\ original_caption (render s') = None
         /\ compressed_panel (render s')
            = Placeholder "No compressed image available"
         /\ compressed_caption (render s') = None
     | None =>
         original_panel (render s') = original_panel (render s)
         /\ original_caption (render s') = original_caption (render s)
         /\ compressed_panel (render s') = compressed_panel (render s)
         /\ compressed_caption (render s') = compressed_caption (render s)
     end.
Proof.
  intros Ht. cbv zeta. unfold after_rejection, render.
  destruct (originalFile s);
    cbn [error_paragraph loading_indicator quality_select dimensions_select
         original_panel original_caption compressed_panel compressed_caption
         error loading originalImageUrl compressedImage imageQuality
         imageDimensions truthy];
    change (match message with
            | "" => false
            | String _ _ => true
            end) with (truthy (Some message));
    rewrite Ht; repeat split.
Qed.

(** From every state, whatever runs are in flight, an empty selection and
    the selection of a file that is not an image make no host call, leave
    the runs in flight alone, set the message and clear the source file.
    When a source file was held, the preview and the compressed image are
    cleared too and the page shows the message above the two grey boxes,
    the loading indicator being as before; when none was held the two
    display areas stay as they were. *)
Theorem rejected_selection_display (h : Host) (w : World) (f : File)
  (rest : list File) :
  prefix "image/" (file_type f) = false ->
  let s := state w in
  let display (s' : State) :=
    loading_indicator (render s') = loading_indicator (render s)
    /\ match originalFile s with
       | Some _ =>
           original_panel (render s')
           = Placeholder "No original image uploaded"
           /\ original_caption (render s') = None
           /\ compressed_panel (render s')
              = Placeholder "No compressed image available"
           /\ compressed_caption (render s') = None
       | None =>
           original_panel (render s') = original_panel (render s)
           /\ original_caption (render s') = original_caption (render s)
           /\ compressed_panel (render s') = compressed_panel (render s)
           /\ compressed_caption (render s') = compressed_caption (render s)
       end in
  wstep h (User (Upload [])) w
  = ({| state := after_rejection msg_select s; pending := pending w |}, [])
  /\ error_paragraph (render (after_rejection msg_select s))
     = Some msg_select
  /\ display (after_rejection msg_select s)
  /\ wstep h (User (Upload (f :: rest))) w
     = ({| state := after_rejection msg_not_image s; pending := pending w |},
        [])
  /\ error_paragraph (render (after_rejection msg_not_image s))
     = Some msg_not_image
  /\ display (after_rejection msg_not_image s).
Proof.
  intros Hp. cbv zeta.
  assert (H1 : step h (Upload []) (state w)
               = (tt, after_rejection msg_select (state w), []))
    by (apply step_upload_rejected; reflexivity).
  assert (H2 : step h (Upload (f :: rest)) (state w)
               = (tt, after_rejection msg_not_image (state w), [])).
  { apply step_upload_rejected. unfold handleImageUpload. rewrite Hp.
    reflexivity. }
  destruct (render_after_rejection msg_select (state w) eq_refl)
    as (A1 & A2 & _ & _ & A3).
  destruct (render_after_rejection msg_not_image (state w) eq_refl)
    as (B1 & B2 & _ & _ & B3).
  split; [|split; [exact A1|split; [split; [exact A2 | exact A3]|]]].
  { rewrite step_user by reflexivity.
    unfold state_after, calls_of. rewrite H1. reflexivity. }
  split; [|split; [exact B1 | split; [exact B2 | exact B3]]].
  rewrite step_user.
  - unfold state_after, calls_of. rewrite H2. reflexivity.
  - unfold state_after. cbn [handler]. unfold handleImageUpload.
    rewrite Hp. reflexivity.
Qed.

Lemma rejected_selection_display_witness :
  let h := host_tagging in
  let w := fst (wrun h trace_quality_changed initial_world) in
  let s := state w in
  wstep h (User (Upload [])) w
  = ({| state := after_rejection msg_select s; pending := pending w |}, [])
  /\ loading_indicator (render (after_rejection msg_select s))
     = Some "Processing image..."
  /\ compressed_panel (render (after_rejection msg_select s))
     = Placeholder "No compressed image available".
Proof.
  pose proof (rejected_selection_display host_tagging
                (fst (wrun host_tagging trace_quality_changed initial_world))
                {| file_oid := 2; file_type := "application/pdf" |} []
                eq_refl) as H.
  cbv zeta in H. destruct H as (H1 & _ & (H2 & H3) & _).
  split; [exact H1|]. split.
  - rewrite H2. vm_compute. reflexivity.
  - vm_compute. reflexivity.
Defined.

(** ** Changing a parameter *)

(** Without a source file, choosing a quality or a width makes no host
    call, leaves the runs in flight alone and keeps the message and the
    loading flag; a value other than the current one is recorded and the
    preview and the compressed image are set to [null]. *)
Theorem parameter_change_without_file (h : Host) (w : World)
  (value : number) :
  originalFile (state w) = None ->
  let s := state w in
  wstep h (User (QualityChange value)) w
  = ({| state := if Number.eqb (imageQuality s) value then s
                 else without_images s value (imageDimensions s);
        pending := pending w |}, [])
  /\ wstep h (User (DimensionsChange value)) w
     = ({| state := if Number.eqb (imageDimensions s) value then s
                    else without_images s (imageQuality s) value;
           pending := pending w |}, []).
Proof.
  intros Hf. destruct w as [s pend]. destruct s as [file url img ld err q d].
  cbn [state originalFile] in Hf. subst file.
  cbv zeta. unfold wstep, without_images, deps_changed.
  cbn [state pending handler handleQualityChange handleDimensionsChange
       setImageQuality setImageDimensions originalFile originalImageUrl
       compressedImage loading error imageQuality imageDimensions same_file
       andb].
  rewrite !eqb_refl. cbn [andb]. split.
  - rewrite andb_true_r.
    destruct (Number.eqb q value) eqn:E; cbn [negb].
    + apply eqb_eq in E. subst value. reflexivity.
    + cbn. rewrite app_nil_r. reflexivity.
  - destruct (Number.eqb d value) eqn:E; cbn [negb].
    + apply eqb_eq in E. subst value. reflexivity.
    + cbn. rewrite app_nil_r. reflexivity.
Qed.

Lemma parameter_change_without_file_witness :
  let h := host_tagging in
  let w := fst (wrun h trace_late_run initial_world) in
  let s := state w in
  wstep h (User (QualityChange (decimal 5 1))) w
  = ({| state := if Number.eqb (imageQuality s) (decimal 5 1) then s
                 else without_images s (decimal 5 1) (imageDimensions s);
        pending := pending w |}, [])
  /\ wstep h (User (DimensionsChange (decimal 5 1))) w
     = ({| state := if Number.eqb (imageDimensions s) (decimal 5 1) then s
                    else without_images s (imageQuality s) (decimal 5 1);
           pending := pending w |}, []).
Proof.
  apply (parameter_change_without_file host_tagging
           (fst (wrun host_tagging trace_late_run initial_world))
           (decimal 5 1)).
  vm_compute. reflexivity.
Defined.



(** When the image of a run in flight is decoded, the compressed image
    becomes the JPEG encoding at the quality, and of the canvas for the
    width, that the run captured when it started, whatever is selected
    and whichever file is held by then; [loading] is cleared, also when
    other runs are still in flight. *)
Theorem late_run_keeps_its_parameters (h : Host) (w : World) (i : nat)
  (url : string) (quality dimensions : number) (img : Image) :
  nth_error (pending w) i = Some (Decoding url quality dimensions) ->
  decode h url = Some img ->
  let s := state w in
  let canvas := canvas_of url img dimensions in
  wstep h (Complete i) w
  = ({| state := {| originalFile := originalFile s;
                    originalImageUrl := originalImageUrl s;
                    compressedImage :=
                      Some (toDataURL h canvas "image/jpeg" quality);
                    loading := false; error := error s;
                    imageQuality := imageQuality s;
                    imageDimensions := imageDimensions s |};
        pending := (firstn i (pending w) ++ skipn (S i) (pending w))%list |},
     [DrawImage canvas; ToDataURL canvas "image/jpeg" quality]).
Proof.
  intros Hn Hd. cbv zeta. unfold wstep. rewrite Hn.
  unfold complete. rewrite Hd. reflexivity.
Qed.

Lemma late_run_keeps_its_parameters_witness :
  let h := host_tagging in
  let w := fst (wrun h [User (Upload [png 1]); Complete 0;
                        User (QualityChange (decimal 5 1))]%nat
                  initial_world) in
  let s := state w in
  let canvas := canvas_of sample_url {| img_width := 1600; img_height := 1200 |}
                  (of_Z 800) in
  wstep h (Complete 0) w
  = ({| state := {| originalFile := originalFile s;
                    originalImageUrl := originalImageUrl s;
                    compressedImage :=
                      Some (toDataURL h canvas "image/jpeg" (decimal 7 1));
                    loading := false; error := error s;
                    imageQuality := imageQuality s;
                    imageDimensions := imageDimensions s |};
        pending := (firstn 0 (pending w) ++ skipn 1 (pending w))%list |},
     [DrawImage canvas; ToDataURL canvas "image/jpeg" (decimal 7 1)]).
Proof.
  apply (late_run_keeps_its_parameters host_tagging
           (fst (wrun host_tagging
                   [User (Upload [png 1]); Complete 0;
                    User (QualityChange (decimal 5 1))]%nat initial_world))
           0%nat sample_url (decimal 7 1) (of_Z 800)
           {| img_width := 1600; img_height := 1200 |}).
  - vm_compute. reflexivity.
  - reflexivity.
Defined.
